(** * The observer service of AGI-Assistant (src/observer_service.py)

    A shallow embedding of the capture pipeline: the key-buffer debouncer,
    the screenshot worker, the push-to-talk recording task, the log worker
    and the controller [start_observer_func] / [stop_observer_func].

    The module-level globals of the Python file become the fields of one
    record [State]; every function of the file becomes a function on that
    record.  The threads of the service are put together in a labelled
    transition function [step]: a label says which thread moves and carries
    what the environment decides at that point (clock readings, whether a
    capture or a file write succeeds).  A schedule is a list of labels.

    Conventions of the model:
    - a callback of a listener or of the flush timer runs as one step; the
      worker loops and the controller move from program point to program
      point, and any interleaving of the threads is a schedule;
    - a call that the source wraps in [try] may fail, as the label says; a
      call of [_output_callback] and a read of an attribute return;
    - one run of the service is modelled: [start_observer_func] is called
      once. *)

From Stdlib Require Import ZArith QArith List Bool Ascii String Lia.
From Stdlib Require Import DecimalString SpecFloat.
Import ListNotations.

Local Open Scope string_scope.
Local Open Scope Z_scope.
Local Open Scope list_scope.

(** ** Python primitives used by the service *)

Module Py.

(** [str.replace(old, new)] for one-character [old] and [new]. *)
Fixpoint replace (old new : ascii) (s : string) : string :=
  match s with
  | EmptyString => EmptyString
  | String c r =>
      String (if Ascii.eqb c old then new else c) (replace old new r)
  end.

(** [s.split(sep)[-1]] for a one-character separator: what follows the
    last occurrence of [sep], the whole string when there is none. *)
Fixpoint split_last (sep : ascii) (s : string) : string :=
  match s with
  | EmptyString => EmptyString
  | String c r =>
      if existsb (Ascii.eqb sep) (list_ascii_of_string r)
      then split_last sep r
      else if Ascii.eqb c sep then r else s
  end.

(** [str(n)] for an integer. *)
Definition str_int (n : Z) : string := NilEmpty.string_of_int (Z.to_int n).

(** [join] with the empty separator, for a list of one-character strings. *)
Definition join (l : list ascii) : string := string_of_list_ascii l.

(** [time.time()] returns a finite float; a reading is kept as the
    rational it denotes.  [int(t)] truncates toward zero and a float is
    falsy exactly when it is zero. *)
Definition int (t : Q) : Z := Z.quot (Qnum t) (Zpos (Qden t)).
Definition truthy (t : Q) : bool := negb (Qnum t =? 0).

(** *** Binary64 arithmetic for [round(n / rate, 2)] *)

Definition prec : Z := 53.
Definition emax : Z := 1024.

Definition float_of_Z (n : Z) : spec_float :=
  binary_normalize prec emax n 0 false.

(** [a / b] on two ints: the correctly rounded quotient (for operands
    below 2^53, where the conversion of each is exact). *)
Definition truediv (a b : Z) : spec_float :=
  SFdiv prec emax (float_of_Z a) (float_of_Z b).

(** Nearest integer to [n / d], ties to even ([d > 0]). *)
Definition round_half_even (n d : Z) : Z :=
  let q := n / d in
  let r := n mod d in
  match 2 * r ?= d with
  | Lt => q
  | Gt => q + 1
  | Eq => if Z.even q then q else q + 1
  end.

(** [round(x, 2)] is the double nearest to the two-decimal numeral that
    is nearest to the exact value of [x] (ties to even).  The result is
    returned as that numeral's count of hundredths; [None] for an
    infinity or a NaN, which [round] hands back unchanged. *)
Definition round2 (x : spec_float) : option Z :=
  match x with
  | S754_zero _ => Some 0
  | S754_finite s m e =>
      let h :=
        if 0 <=? e then 100 * Zpos m * 2 ^ e
        else round_half_even (100 * Zpos m) (2 ^ (- e)) in
      Some (if s then - h else h)
  | _ => None
  end.

End Py.

(** ** Configuration *)

Definition DATA_DIR : string := "data/raw".
Definition REGION_SIZE : Z := 100.
Definition AUDIO_SAMPLE_RATE : Z := 16000.

(** ** Keys as pynput delivers them

    A member of the enum [keyboard.Key] has a name and no [char] attribute;
    a [keyboard.KeyCode] has a [char] attribute that is one character or
    [None]. *)

Inductive key : Type :=
| Key (name : string)
| KeyCode (char : option ascii).

Definition key_eqb (k1 k2 : key) : bool :=
  match k1, k2 with
  | Key a, Key b => String.eqb a b
  | KeyCode (Some a), KeyCode (Some b) => Ascii.eqb a b
  | KeyCode None, KeyCode None => true
  | _, _ => false
  end.

Definition PUSH_TO_TALK_KEY : key := Key "ctrl_r".
Definition Key_space : key := Key "space".

(** [str(key)] for a member of [keyboard.Key]. *)
Definition str_key (name : string) : string := ("Key." ++ name)%string.

(** ** Events *)

Record click_data : Type := mk_click {
  cd_timestamp : Z;
  cd_button : string;
  cd_x : Z;
  cd_y : Z
}.

(** The dictionaries put on the log queue, one constructor per value of
    their ["event"] entry.  A path entry is a string or [None]; the duration
    is a count of hundredths (see [Py.round2]). *)
Inductive event : Type :=
| EClick (timestamp : Z) (button : string) (x y : Z)
         (fullscreen_img region_img : option string)
| EType (timestamp : Z) (text : string)
| EKeyPress (timestamp : Z) (key : string)
| EAudioCommand (timestamp : Z) (audio_file : string) (duration : option Z).

(** ** Region clamp of [_safe_grab_region] *)

Record monitor : Type := mk_monitor {
  m_left : Z;
  m_top : Z;
  m_width : Z;
  m_height : Z
}.

Record region : Type := mk_region {
  r_top : Z;
  r_left : Z;
  r_width : Z;
  r_height : Z
}.

Definition half_size : Z := REGION_SIZE / 2.

Definition clamp_region (mon : monitor) (x y : Z) : region :=
  let top := Z.max (m_top mon)
               (Z.min (y - half_size) (m_top mon + m_height mon - REGION_SIZE)) in
  let left := Z.max (m_left mon)
               (Z.min (x - half_size) (m_left mon + m_width mon - REGION_SIZE)) in
  mk_region top left REGION_SIZE REGION_SIZE.

(** A point lies inside the monitor. *)
Definition inside_monitor (mon : monitor) (x y : Z) : Prop :=
  m_left mon <= x < m_left mon + m_width mon /\
  m_top mon <= y < m_top mon + m_height mon.

(** A region lies within
    [[left, left + width) x [top, top + height)] of the monitor. *)
Definition region_within (mon : monitor) (r : region) : Prop :=
  m_left mon <= r_left r /\ r_left r + r_width r <= m_left mon + m_width mon /\
  m_top mon <= r_top r /\ r_top r + r_height r <= m_top mon + m_height mon.

(** ** Messages handed to [_output_callback] *)

Inductive msg : Type :=
| MErrorLogging              (* "Error logging event: ..." *)
| MLogWorkerStopping         (* "Log worker stopping." *)
| MNoPrimaryMonitor          (* "Error: Could not detect primary monitor." *)
| MErrorGrabbing (r : region)(* "Error grabbing region at ...: ..." *)
| MErrorFullScreen           (* "Error capturing full screen: ..." *)
| MErrorSavingRegion         (* "Error saving region image: ..." *)
| MShotWorkerStopping        (* "Screenshot worker stopping." *)
| MLoggedTyping (text : string) (* "Logged typing: '...'" *)
| MRecordingStopped          (* "...recording stopped." *)
| MRecordingAudio            (* "Recording audio..." *)
| MAudioStatus               (* "Audio Input Status: ..." *)
| MPortAudioError            (* "PortAudioError during recording: ..." *)
| MCheckMicrophone           (* "Please check microphone connection." *)
| MUnexpectedAudioError      (* "Unexpected error during audio recording: ..." *)
| MSavedAudio (path : string)(* "Saved audio to ..." *)
| MErrorSavingAudio (path : string) (* "Error saving audio file ...: ..." *)
| MStarting                  (* "Starting Observer Service..." and two lines *)
| MRunning                   (* "--- Observer is now running ---" *)
| MMainLoopStop              (* "Observer main loop received stop signal." *)
| MWaitingWorkers            (* "Waiting for observer worker threads..." *)
| MFlushingFinal             (* "Flushing final key buffer..." *)
| MStopped                   (* "--- Observer stopped ---" *)
| MStopSignal.               (* "Stop signal received. Initiating ..." *)

(** ** Threads and their program points *)

(** [_log_worker]. *)
Inductive log_pc : Type :=
| LNotStarted
| LHead                      (* about to test [while not stop.is_set()] *)
| LGet                       (* inside [_log_queue.get(timeout=0.5)] *)
| LLog (e : event)           (* holds a dequeued event, before [_log_event] *)
| LDone.

(** [_screenshot_worker]. *)
Inductive shot_pc : Type :=
| SNotStarted
| SHead
| SGet
| SProc (c : click_data)
| SDone.

(** [_record_audio_task]. *)
Inductive audio_pc : Type :=
| ABegin                     (* thread started *)
| AOpen                      (* frames reset, about to open the stream *)
| AWait                      (* stream running, blocked in [wait()] *)
| AWoken                     (* stream running, [wait()] has been notified *)
| AFinish                    (* stream closed, before [if _audio_frames:] *)
| ADone.

(** [start_observer_func]. *)
Inductive ctrl_pc : Type :=
| CIdle                      (* not called yet *)
| CPoll                      (* in [while not stop.is_set(): sleep(1)] *)
| CStopListeners
| CSentinels
| CJoinShot
| CJoinLog
| CFlush
| CReport
| CDone                      (* returned *)
| CRaised.                   (* left by an exception of [setup_directories] *)

Inductive listener : Type := NotCreated | Running | Stopped.

(** ** The globals of the module *)

Record State : Type := mkState {
  os_sep : ascii;                         (* [os.sep] of the platform *)
  _key_buffer : list ascii;
  _last_key_time : option Q;
  _buffer_flush_timer : bool;             (* a started timer is pending *)
  _screenshot_queue : list (option click_data);   (* [None] is the sentinel *)
  _log_queue : list (option event);
  _is_recording : bool;
  _audio_frames : list Z;                 (* sample count of each block *)
  _stop_recording_flag : bool;
  _observer_stop_event : bool;
  _mouse_listener : listener;
  _keyboard_listener : listener;
  _log_thread : log_pc;
  _screenshot_thread : shot_pc;
  audio_threads : list audio_pc;          (* one per [Thread(...).start()] *)
  controller : ctrl_pc;
  log_file : list event;                  (* lines of [LOG_FILE], oldest first *)
  output : list msg                       (* calls of [_output_callback] *)
}.

Definition init (sep : ascii) : State :=
  mkState sep [] None false [] [] false [] false false
          NotCreated NotCreated LNotStarted SNotStarted [] CIdle [] [].

(** ** Assignments to the globals *)

Definition set_key_buffer (v : list ascii) (s : State) : State :=
  mkState (os_sep s) v (_last_key_time s) (_buffer_flush_timer s)
          (_screenshot_queue s) (_log_queue s) (_is_recording s)
          (_audio_frames s) (_stop_recording_flag s) (_observer_stop_event s)
          (_mouse_listener s) (_keyboard_listener s) (_log_thread s)
          (_screenshot_thread s) (audio_threads s) (controller s) (log_file s)
          (output s).

Definition set_last_key_time (v : option Q) (s : State) : State :=
  mkState (os_sep s) (_key_buffer s) v (_buffer_flush_timer s)
          (_screenshot_queue s) (_log_queue s) (_is_recording s)
          (_audio_frames s) (_stop_recording_flag s) (_observer_stop_event s)
          (_mouse_listener s) (_keyboard_listener s) (_log_thread s)
          (_screenshot_thread s) (audio_threads s) (controller s) (log_file s)
          (output s).

Definition set_buffer_flush_timer (v : bool) (s : State) : State :=
  mkState (os_sep s) (_key_buffer s) (_last_key_time s) v
          (_screenshot_queue s) (_log_queue s) (_is_recording s)
          (_audio_frames s) (_stop_recording_flag s) (_observer_stop_event s)
          (_mouse_listener s) (_keyboard_listener s) (_log_thread s)
          (_screenshot_thread s) (audio_threads s) (controller s) (log_file s)
          (output s).

Definition set_screenshot_queue (v : list (option click_data)) (s : State) : State :=
  mkState (os_sep s) (_key_buffer s) (_last_key_time s)
          (_buffer_flush_timer s) v (_log_queue s) (_is_recording s)
          (_audio_frames s) (_stop_recording_flag s) (_observer_stop_event s)
          (_mouse_listener s) (_keyboard_listener s) (_log_thread s)
          (_screenshot_thread s) (audio_threads s) (controller s) (log_file s)
          (output s).

Definition set_log_queue (v : list (option event)) (s : State) : State :=
  mkState (os_sep s) (_key_buffer s) (_last_key_time s)
          (_buffer_flush_timer s) (_screenshot_queue s) v (_is_recording s)
          (_audio_frames s) (_stop_recording_flag s) (_observer_stop_event s)
          (_mouse_listener s) (_keyboard_listener s) (_log_thread s)
          (_screenshot_thread s) (audio_threads s) (controller s) (log_file s)
          (output s).

Definition set_is_recording (v : bool) (s : State) : State :=
  mkState (os_sep s) (_key_buffer s) (_last_key_time s)
          (_buffer_flush_timer s) (_screenshot_queue s) (_log_queue s) v
          (_audio_frames s) (_stop_recording_flag s) (_observer_stop_event s)
          (_mouse_listener s) (_keyboard_listener s) (_log_thread s)
          (_screenshot_thread s) (audio_threads s) (controller s) (log_file s)
          (output s).

Definition set_audio_frames (v : list Z) (s : State) : State :=
  mkState (os_sep s) (_key_buffer s) (_last_key_time s)
          (_buffer_flush_timer s) (_screenshot_queue s) (_log_queue s)
          (_is_recording s) v (_stop_recording_flag s)
          (_observer_stop_event s) (_mouse_listener s) (_keyboard_listener s)
          (_log_thread s) (_screenshot_thread s) (audio_threads s)
          (controller s) (log_file s) (output s).

Definition set_stop_recording_flag (v : bool) (s : State) : State :=
  mkState (os_sep s) (_key_buffer s) (_last_key_time s)
          (_buffer_flush_timer s) (_screenshot_queue s) (_log_queue s)
          (_is_recording s) (_audio_frames s) v (_observer_stop_event s)
          (_mouse_listener s) (_keyboard_listener s) (_log_thread s)
          (_screenshot_thread s) (audio_threads s) (controller s) (log_file s)
          (output s).

Definition set_observer_stop_event (v : bool) (s : State) : State :=
  mkState (os_sep s) (_key_buffer s) (_last_key_time s)
          (_buffer_flush_timer s) (_screenshot_queue s) (_log_queue s)
          (_is_recording s) (_audio_frames s) (_stop_recording_flag s) v
          (_mouse_listener s) (_keyboard_listener s) (_log_thread s)
          (_screenshot_thread s) (audio_threads s) (controller s) (log_file s)
          (output s).

Definition set_mouse_listener (v : listener) (s : State) : State :=
  mkState (os_sep s) (_key_buffer s) (_last_key_time s)
          (_buffer_flush_timer s) (_screenshot_queue s) (_log_queue s)
          (_is_recording s) (_audio_frames s) (_stop_recording_flag s)
          (_observer_stop_event s) v (_keyboard_listener s) (_log_thread s)
          (_screenshot_thread s) (audio_threads s) (controller s) (log_file s)
          (output s).

Definition set_keyboard_listener (v : listener) (s : State) : State :=
  mkState (os_sep s) (_key_buffer s) (_last_key_time s)
          (_buffer_flush_timer s) (_screenshot_queue s) (_log_queue s)
          (_is_recording s) (_audio_frames s) (_stop_recording_flag s)
          (_observer_stop_event s) (_mouse_listener s) v (_log_thread s)
          (_screenshot_thread s) (audio_threads s) (controller s) (log_file s)
          (output s).

Definition set_log_thread (v : log_pc) (s : State) : State :=
  mkState (os_sep s) (_key_buffer s) (_last_key_time s)
          (_buffer_flush_timer s) (_screenshot_queue s) (_log_queue s)
          (_is_recording s) (_audio_frames s) (_stop_recording_flag s)
          (_observer_stop_event s) (_mouse_listener s) (_keyboard_listener s)
          v (_screenshot_thread s) (audio_threads s) (controller s)
          (log_file s) (output s).

Definition set_screenshot_thread (v : shot_pc) (s : State) : State :=
  mkState (os_sep s) (_key_buffer s) (_last_key_time s)
          (_buffer_flush_timer s) (_screenshot_queue s) (_log_queue s)
          (_is_recording s) (_audio_frames s) (_stop_recording_flag s)
          (_observer_stop_event s) (_mouse_listener s) (_keyboard_listener s)
          (_log_thread s) v (audio_threads s) (controller s) (log_file s)
          (output s).

Definition set_audio_threads (v : list audio_pc) (s : State) : State :=
  mkState (os_sep s) (_key_buffer s) (_last_key_time s)
          (_buffer_flush_timer s) (_screenshot_queue s) (_log_queue s)
          (_is_recording s) (_audio_frames s) (_stop_recording_flag s)
          (_observer_stop_event s) (_mouse_listener s) (_keyboard_listener s)
          (_log_thread s) (_screenshot_thread s) v (controller s) (log_file s)
          (output s).

Definition set_controller (v : ctrl_pc) (s : State) : State :=
  mkState (os_sep s) (_key_buffer s) (_last_key_time s)
          (_buffer_flush_timer s) (_screenshot_queue s) (_log_queue s)
          (_is_recording s) (_audio_frames s) (_stop_recording_flag s)
          (_observer_stop_event s) (_mouse_listener s) (_keyboard_listener s)
          (_log_thread s) (_screenshot_thread s) (audio_threads s) v
          (log_file s) (output s).

Definition set_log_file (v : list event) (s : State) : State :=
  mkState (os_sep s) (_key_buffer s) (_last_key_time s)
          (_buffer_flush_timer s) (_screenshot_queue s) (_log_queue s)
          (_is_recording s) (_audio_frames s) (_stop_recording_flag s)
          (_observer_stop_event s) (_mouse_listener s) (_keyboard_listener s)
          (_log_thread s) (_screenshot_thread s) (audio_threads s)
          (controller s) v (output s).

Definition set_output (v : list msg) (s : State) : State :=
  mkState (os_sep s) (_key_buffer s) (_last_key_time s)
          (_buffer_flush_timer s) (_screenshot_queue s) (_log_queue s)
          (_is_recording s) (_audio_frames s) (_stop_recording_flag s)
          (_observer_stop_event s) (_mouse_listener s) (_keyboard_listener s)
          (_log_thread s) (_screenshot_thread s) (audio_threads s)
          (controller s) (log_file s) v.

(** ** The functions of the module *)

Definition out (m : msg) (s : State) : State :=
  set_output (output s ++ [m]) s.

(** [_log_queue.put(item)] and [_screenshot_queue.put(item)]. *)
Definition log_put (item : option event) (s : State) : State :=
  set_log_queue (_log_queue s ++ [item]) s.

Definition shot_put (item : option click_data) (s : State) : State :=
  set_screenshot_queue (_screenshot_queue s ++ [item]) s.

Definition backslash : ascii := "\".
Definition slash : ascii := "/".

(** [os.path.join(a, b)] for a relative [b] and an [a] that does not end
    with a separator, then [.replace("\\", "/")]. *)
Definition data_path (sep : ascii) (file : string) : string :=
  Py.replace backslash slash (DATA_DIR ++ String sep file)%string.

(** *** Logging *)

(** The loop over ["fullscreen_img"], ["region_img"], ["audio_file"] of
    [_log_event]. *)
Definition normalize_paths (e : event) : event :=
  match e with
  | EClick ts b x y fs rg =>
      EClick ts b x y (option_map (Py.replace backslash slash) fs)
             (option_map (Py.replace backslash slash) rg)
  | EAudioCommand ts p d => EAudioCommand ts (Py.replace backslash slash p) d
  | _ => e
  end.

(** [_log_event]: one line is appended to the file, or the exception of
    the [open]/[write] is caught and reported ([write_ok = false]). *)
Definition _log_event (write_ok : bool) (event_data : event) (s : State)
  : State :=
  if write_ok then set_log_file (log_file s ++ [normalize_paths event_data]) s
  else out MErrorLogging s.

(** *** Keyboard and buffering *)

(** [_flush_key_buffer]; [now] is what [time.time()] reads if it is called. *)
Definition _flush_key_buffer (now : Q) (s : State) : State :=
  let s := set_buffer_flush_timer false s in
  match _key_buffer s with
  | [] => s
  | _ :: _ =>
      let log_timestamp :=
        match _last_key_time s with
        | Some t => if Py.truthy t then Py.int t else Py.int now
        | None => Py.int now
        end in
      let typed_string := Py.join (_key_buffer s) in
      let s := out (MLoggedTyping typed_string) s in
      let s := log_put (Some (EType log_timestamp typed_string)) s in
      set_key_buffer [] s
  end.

(** [if timer: timer.cancel()] followed by a fresh [Timer(...).start()]. *)
Definition restart_timer (s : State) : State := set_buffer_flush_timer true s.

(** [_stop_recording_flag.set()]: the flag is raised and every thread
    blocked in [wait()] is notified. *)
Definition notify (p : audio_pc) : audio_pc :=
  match p with
  | AWait => AWoken
  | _ => p
  end.

Definition stop_recording_flag_set (s : State) : State :=
  set_audio_threads (map notify (audio_threads s))
                    (set_stop_recording_flag true s).

Definition special_key_repr (name : string) : string :=
  if key_eqb (Key name) Key_space then " "
  else ("[" ++ Py.split_last "." (str_key name) ++ "]")%string.

(** [_on_press]; [now] is the reading stored in [_last_key_time], [now']
    the later reading a flush may take. *)
Definition _on_press (k : key) (now now' : Q) (s : State) : State :=
  let s := set_last_key_time (Some now) s in
  if key_eqb k PUSH_TO_TALK_KEY then
    if negb (_is_recording s) then
      let s := _flush_key_buffer now' s in
      let s := set_is_recording true s in
      let s := set_stop_recording_flag false s in
      set_audio_threads (audio_threads s ++ [ABegin]) s
    else s
  else
    match k with
    | KeyCode None => _flush_key_buffer now' s
    | Key name =>
        let s := _flush_key_buffer now' s in
        let s := log_put (Some (EKeyPress (Py.int now) (special_key_repr name))) s in
        restart_timer s
    | KeyCode (Some char) =>
        let s := set_key_buffer (_key_buffer s ++ [char]) s in
        restart_timer s
    end.

Definition _on_release (k : key) (s : State) : State :=
  if key_eqb k PUSH_TO_TALK_KEY && _is_recording s then
    let s := stop_recording_flag_set s in
    let s := set_is_recording false s in
    out MRecordingStopped s
  else s.

Definition _on_click (x y : Z) (button : string) (pressed : bool) (now : Q)
  (s : State) : State :=
  if pressed then shot_put (Some (mk_click (Py.int now) button x y)) s
  else s.

(** *** Screenshots *)

(** What the screen-capture library does when it is asked. *)
Record sct_env : Type := mk_sct {
  sct_shot_ok : bool;              (* [sct.shot(mon=-1, ...)] returns *)
  sct_monitors : list monitor;     (* [sct.monitors] *)
  sct_grab_ok : region -> bool;    (* [sct.grab(region)] returns *)
  to_png_ok : bool                 (* [mss.tools.to_png(...)] returns *)
}.

(** [_safe_grab_region]; the image is stood for by the region grabbed. *)
Definition _safe_grab_region (sct : sct_env) (x y : Z) (s : State)
  : option region * State :=
  match sct_monitors sct with
  | _ :: mon :: _ =>
      let r := clamp_region mon x y in
      if sct_grab_ok sct r then (Some r, s)
      else (None, out (MErrorGrabbing r) s)
  | _ => (None, out MNoPrimaryMonitor s)   (* [len(sct.monitors) < 2] *)
  end.

(** The body of the loop of [_screenshot_worker] for one dequeued item. *)
Definition process_click (sct : sct_env) (c : click_data) (s : State) : State :=
  let timestamp := cd_timestamp c in
  let fs_path :=
    data_path (os_sep s) (Py.str_int timestamp ++ "_fullscreen.png")%string in
  let region_path :=
    data_path (os_sep s) (Py.str_int timestamp ++ "_region.png")%string in
  let '(fs_path, s) :=
    if sct_shot_ok sct then (Some fs_path, s)
    else (None, out MErrorFullScreen s) in
  let '(region_img, s) := _safe_grab_region sct (cd_x c) (cd_y c) s in
  let '(region_path, s) :=
    match region_img with
    | Some _ =>
        if to_png_ok sct then (Some region_path, s)
        else (None, out MErrorSavingRegion s)
    | None => (None, s)
    end in
  log_put (Some (EClick timestamp (cd_button c) (cd_x c) (cd_y c)
                        fs_path region_path)) s.

(** *** Audio recording *)

Inductive stream_outcome : Type :=
| StreamOk
| StreamPortAudioError (invalid_device : bool)
| StreamOtherError.

(** The two [except] clauses of [_record_audio_task]. *)
Definition audio_except (o : stream_outcome) (s : State) : State :=
  match o with
  | StreamOk => s
  | StreamPortAudioError invalid_device =>
      let s := out MPortAudioError s in
      let s := if invalid_device then out MCheckMicrophone s else s in
      let s := stop_recording_flag_set s in
      set_is_recording false s
  | StreamOtherError =>
      let s := out MUnexpectedAudioError s in
      let s := stop_recording_flag_set s in
      set_is_recording false s
  end.

(** [audio_callback]. *)
Definition audio_callback (status : bool) (n : Z) (s : State) : State :=
  let s := if status then out MAudioStatus s else s in
  set_audio_frames (_audio_frames s ++ [n]) s.

(** [len(np.concatenate(_audio_frames, axis=0))]. *)
Definition total_samples (frames : list Z) : Z := fold_right Z.add 0 frames.

(** The part of [_record_audio_task] after the stream is closed. *)
Definition record_audio_finish (now : Q) (save_ok : bool) (s : State) : State :=
  match _audio_frames s with
  | [] => s
  | _ :: _ =>
      let timestamp := Py.int now in
      let audio_path :=
        data_path (os_sep s) (Py.str_int timestamp ++ "_audio.wav")%string in
      if save_ok then
        let duration :=
          Py.round2 (Py.truediv (total_samples (_audio_frames s))
                                AUDIO_SAMPLE_RATE) in
        let s := log_put (Some (EAudioCommand timestamp audio_path duration)) s in
        out (MSavedAudio audio_path) s
      else out (MErrorSavingAudio audio_path) s
  end.

(** ** The service as a transition system *)

(** A label names the thread that moves and carries what the environment
    contributes to the move. *)
Inductive label : Type :=
| LStart (mkdir_ok : bool)         (* [start_observer_func] is called *)
| LStop                            (* [stop_observer_func] is called *)
| LCtrl (now : Q)                  (* the thread inside [start_observer_func] *)
| LCtrlJoinTimeout                 (* its [join(timeout=3.0)] gives up *)
| LLogStep (write_ok : bool)       (* [_log_worker] *)
| LLogTimeout                      (* its [get] raises [queue.Empty] *)
| LShotStep (sct : sct_env)        (* [_screenshot_worker] *)
| LShotTimeout
| LClick (x y : Z) (button : string) (pressed : bool) (now : Q)
| LPress (k : key) (now now' : Q)
| LRelease (k : key)
| LTimer (now : Q)                 (* the pending flush timer fires *)
| LAudio (i : nat) (o : stream_outcome) (now : Q) (save_ok : bool)
| LAudioFrame (i : nat) (status : bool) (n : Z).

Fixpoint list_set {A : Type} (i : nat) (v : A) (l : list A) : list A :=
  match l, i with
  | [], _ => []
  | _ :: r, O => v :: r
  | a :: r, S j => a :: list_set j v r
  end.

Definition set_audio_pc (i : nat) (p : audio_pc) (s : State) : State :=
  set_audio_threads (list_set i p (audio_threads s)) s.

Definition stop_listener (l : listener) : listener :=
  match l with Running => Stopped | _ => l end.

(** [start_observer_func] up to its loop. *)
Definition start_observer_begin (mkdir_ok : bool) (s : State) : State :=
  let s := out MStarting s in
  if mkdir_ok then
    let s := set_observer_stop_event false s in
    let s := set_log_thread LHead s in
    let s := set_screenshot_thread SHead s in
    let s := set_mouse_listener Running s in
    let s := set_keyboard_listener Running s in
    let s := out MRunning s in
    set_controller CPoll s
  else set_controller CRaised s.

Definition stop_observer_func (s : State) : State :=
  set_observer_stop_event true (out MStopSignal s).

(** One step of the thread that runs [start_observer_func]. *)
Definition start_observer_func (now : Q) (s : State) : option State :=
  match controller s with
  | CPoll =>
      if _observer_stop_event s then Some (set_controller CStopListeners s)
      else Some s                                  (* [time.sleep(1)] *)
  | CStopListeners =>
      let s := out MMainLoopStop s in
      let s := set_mouse_listener (stop_listener (_mouse_listener s)) s in
      let s := set_keyboard_listener (stop_listener (_keyboard_listener s)) s in
      Some (set_controller CSentinels s)
  | CSentinels =>
      let s := shot_put None s in
      let s := log_put None s in
      let s := out MWaitingWorkers s in
      Some (set_controller CJoinShot s)
  | CJoinShot =>
      match _screenshot_thread s with
      | SDone => Some (set_controller CJoinLog s)
      | _ => None                                  (* blocked in [join] *)
      end
  | CJoinLog =>
      match _log_thread s with
      | LDone => Some (set_controller CFlush s)
      | _ => None
      end
  | CFlush =>
      let s := out MFlushingFinal s in
      let s := _flush_key_buffer now s in
      Some (set_controller CReport s)
  | CReport => Some (set_controller CDone (out MStopped s))
  | _ => None
  end.

Definition ctrl_join_timeout (s : State) : option State :=
  match controller s with
  | CJoinShot => Some (set_controller CJoinLog s)
  | CJoinLog => Some (set_controller CFlush s)
  | _ => None
  end.

(** One step of [_log_worker]. *)
Definition _log_worker (write_ok : bool) (s : State) : option State :=
  match _log_thread s with
  | LHead =>
      if _observer_stop_event s
      then Some (set_log_thread LDone (out MLogWorkerStopping s))
      else Some (set_log_thread LGet s)
  | LGet =>
      match _log_queue s with
      | [] => None                                 (* blocked in [get] *)
      | None :: q =>
          Some (set_log_thread LDone
                  (out MLogWorkerStopping (set_log_queue q s)))
      | Some e :: q => Some (set_log_thread (LLog e) (set_log_queue q s))
      end
  | LLog e => Some (set_log_thread LHead (_log_event write_ok e s))
  | _ => None
  end.

Definition log_timeout (s : State) : option State :=
  match _log_thread s, _log_queue s with
  | LGet, [] => Some (set_log_thread LHead s)
  | _, _ => None
  end.

(** One step of [_screenshot_worker]. *)
Definition _screenshot_worker (sct : sct_env) (s : State) : option State :=
  match _screenshot_thread s with
  | SHead =>
      if _observer_stop_event s
      then Some (set_screenshot_thread SDone (out MShotWorkerStopping s))
      else Some (set_screenshot_thread SGet s)
  | SGet =>
      match _screenshot_queue s with
      | [] => None
      | None :: q =>
          Some (set_screenshot_thread SDone
                  (out MShotWorkerStopping (set_screenshot_queue q s)))
      | Some c :: q =>
          Some (set_screenshot_thread (SProc c) (set_screenshot_queue q s))
      end
  | SProc c => Some (set_screenshot_thread SHead (process_click sct c s))
  | _ => None
  end.

Definition shot_timeout (s : State) : option State :=
  match _screenshot_thread s, _screenshot_queue s with
  | SGet, [] => Some (set_screenshot_thread SHead s)
  | _, _ => None
  end.

(** One step of the [i]-th thread running [_record_audio_task]. *)
Definition _record_audio_task (i : nat) (o : stream_outcome) (now : Q)
  (save_ok : bool) (s : State) : option State :=
  match nth_error (audio_threads s) i with
  | Some ABegin =>
      Some (set_audio_pc i AOpen (set_audio_frames [] (out MRecordingAudio s)))
  | Some AOpen =>
      match o with
      | StreamOk =>
          Some (set_audio_pc i
                  (if _stop_recording_flag s then AWoken else AWait) s)
      | _ => Some (set_audio_pc i AFinish (audio_except o s))
      end
  | Some AWoken => Some (set_audio_pc i AFinish (audio_except o s))
  | Some AFinish => Some (set_audio_pc i ADone (record_audio_finish now save_ok s))
  | _ => None
  end.

Definition audio_frame (i : nat) (status : bool) (n : Z) (s : State)
  : option State :=
  match nth_error (audio_threads s) i with
  | Some AWait | Some AWoken => Some (audio_callback status n s)
  | _ => None
  end.

Definition step (a : label) (s : State) : option State :=
  match a with
  | LStart mkdir_ok =>
      match controller s with
      | CIdle => Some (start_observer_begin mkdir_ok s)
      | _ => None
      end
  | LStop => Some (stop_observer_func s)
  | LCtrl now => start_observer_func now s
  | LCtrlJoinTimeout => ctrl_join_timeout s
  | LLogStep write_ok => _log_worker write_ok s
  | LLogTimeout => log_timeout s
  | LShotStep sct => _screenshot_worker sct s
  | LShotTimeout => shot_timeout s
  | LClick x y button pressed now =>
      match _mouse_listener s with
      | Running => Some (_on_click x y button pressed now s)
      | _ => None
      end
  | LPress k now now' =>
      match _keyboard_listener s with
      | Running => Some (_on_press k now now' s)
      | _ => None
      end
  | LRelease k =>
      match _keyboard_listener s with
      | Running => Some (_on_release k s)
      | _ => None
      end
  | LTimer now =>
      if _buffer_flush_timer s then Some (_flush_key_buffer now s) else None
  | LAudio i o now save_ok => _record_audio_task i o now save_ok s
  | LAudioFrame i status n => audio_frame i status n s
  end.

(** A schedule is run from left to right; [None] when some label is not
    enabled where it stands. *)
Fixpoint run (tr : list label) (s : State) : option State :=
  match tr with
  | [] => Some s
  | a :: tr' =>
      match step a s with
      | Some s' => run tr' s'
      | None => None
      end
  end.


(** ** Notions used to state the properties *)

(** The timestamp a flush gives its event. *)
Definition flush_timestamp (now : Q) (s : State) : Z :=
  match _last_key_time s with
  | Some t => if Py.truthy t then Py.int t else Py.int now
  | None => Py.int now
  end.

(** A name without a dot, as the names of an enum are. *)
Definition has_dot (name : string) : bool :=
  existsb (Ascii.eqb ".") (list_ascii_of_string name).

(** The region image of a click at (x, y) is grabbed and saved. *)
Definition region_capture_ok (sct : sct_env) (x y : Z) : bool :=
  match sct_monitors sct with
  | _ :: mon :: _ => sct_grab_ok sct (clamp_region mon x y) && to_png_ok sct
  | _ => false
  end.

(** The warnings of a failed region capture. *)
Definition region_warning (m : msg) : bool :=
  match m with
  | MNoPrimaryMonitor | MErrorGrabbing _ | MErrorSavingRegion => true
  | _ => false
  end.


(** The events of a queue, sentinels left out. *)
Definition queued_events (q : list (option event)) : list event :=
  flat_map (fun i => match i with Some e => [e] | None => [] end) q.

(** The event the log worker has dequeued and not yet handed to
    [_log_event]. *)
Definition in_flight (s : State) : list event :=
  match _log_thread s with
  | LLog e => [e]
  | _ => []
  end.

(** The lines of the log file followed by the lines still to come from what
    is in flight and queued. *)
Definition log_stream (s : State) : list event :=
  log_file s ++ map normalize_paths (in_flight s ++ queued_events (_log_queue s)).

(** No write of the schedule fails. *)
Definition writes_succeed (a : label) : bool :=
  match a with
  | LLogStep false => false
  | _ => true
  end.

Definition is_stop (a : label) : bool :=
  match a with
  | LStop => true
  | _ => false
  end.

(** [start_observer_func] has left its loop. *)
Definition shutting_down (p : ctrl_pc) : bool :=
  match p with
  | CStopListeners | CSentinels | CJoinShot | CJoinLog | CFlush | CReport
  | CDone => true
  | _ => false
  end.

(** The shutdown sequence when both joins come back at once, and when both
    run into their timeout. *)
Definition shutdown_joined (now : Q) : list label :=
  [LCtrl now; LCtrl now; LCtrl now; LCtrl now; LCtrl now; LCtrl now; LCtrl now].

Definition shutdown_timed_out (now : Q) : list label :=
  [LCtrl now; LCtrl now; LCtrl now; LCtrlJoinTimeout; LCtrlJoinTimeout;
   LCtrl now; LCtrl now].

(** ** States and schedules used as examples *)

(** 'a' typed at time 10, then 'b' at time 20. *)
Definition typed_ab : State :=
  _on_press (KeyCode (Some "b"%char)) 20 20
    (_on_press (KeyCode (Some "a"%char)) 10 10 (init "/")).

(** [s'] differs from [s] for the log worker only by items added at the
    back of the log queue. *)
Definition extends (s s' : State) : Prop :=
  log_file s' = log_file s /\
  _log_thread s' = _log_thread s /\
  exists new, _log_queue s' = _log_queue s ++ new.

(** [s'] has the controller and the stop signal of [s]. *)
Definition same_control (s s' : State) : Prop :=
  controller s' = controller s /\
  _observer_stop_event s' = _observer_stop_event s.

Definition ok_sct : sct_env :=
  mk_sct true [mk_monitor 0 0 3840 1080; mk_monitor 0 0 1920 1080]
         (fun _ => true) true.

(** The state a schedule leads to ([s] itself when it cannot be run). *)
Definition after (tr : list label) (s : State) : State :=
  match run tr s with
  | Some s' => s'
  | None => s
  end.

(** Enter is pressed at time 10 and dequeued by the log worker; Tab is
    pressed at time 11 while the worker is still writing; then
    [stop_observer_func] is called.  The worker writes the Enter event,
    finds the stop signal set and leaves; the controller shuts down. *)
Definition stop_with_backlog : list label :=
  [LStart true; LLogStep true;
   LPress (Key "enter") 10 10; LLogStep true;
   LPress (Key "tab") 11 11;
   LStop;
   LLogStep true; LLogStep true; LShotStep ok_sct]
  ++ shutdown_joined 12.

(** The service is running and the log worker holds the Enter event. *)
Definition running_with_event : State :=
  after [LStart true; LLogStep true; LPress (Key "enter") 10 10;
         LLogStep true] (init "/").

(** 'a' is typed at time 10 and, before the idle timer fires,
    [stop_observer_func] is called; both workers see their sentinel and
    leave, both joins come back, the controller flushes and reports. *)
Definition stop_after_typing : list label :=
  [LStart true; LLogStep true; LShotStep ok_sct;
   LPress (KeyCode (Some "a"%char)) 10 10;
   LStop;
   LCtrl 11; LCtrl 11; LCtrl 11;
   LShotStep ok_sct; LLogStep true;
   LCtrl 12; LCtrl 12; LCtrl 12; LCtrl 12].

(** A screen-capture library on which every capture fails. *)
Definition failing_sct : sct_env :=
  mk_sct false [mk_monitor 0 0 1920 1080] (fun _ => false) false.

(** The screenshot worker has dequeued a click at (100, 200). *)
Definition click_dequeued : State :=
  after [LStart true; LShotStep ok_sct;
         LClick 100 200 "Button.left" true 1700000000;
         LShotStep ok_sct] (init "/").

(** Push-to-talk is held and one block of 1600 samples has come in. *)
Definition recording : State :=
  after [LStart true; LPress PUSH_TO_TALK_KEY 5 5;
         LAudio 0 StreamOk 5 true; LAudio 0 StreamOk 5 true;
         LAudioFrame 0 false 1600] (init "/").


(** The controller has put the sentinels on the queues. *)
Definition past_sentinel (p : ctrl_pc) : bool :=
  match p with
  | CJoinShot | CJoinLog | CFlush | CReport | CDone => true
  | _ => false
  end.

(** What the log worker can still write once the stop signal is set: the
    event it holds, or the one at the front of the queue when it is inside
    [get]. *)
Definition last_write (s : State) : list event :=
  match _log_thread s with
  | LLog e => [e]
  | LGet =>
      match _log_queue s with
      | Some e :: _ => [e]
      | _ => []
      end
  | _ => []
  end.

(** The stop signal is set during the shutdown sequence, and once the
    sentinels are out a log worker inside [get] has the sentinel of the
    log queue still in front of it. *)
Definition shutdown_inv (s : State) : Prop :=
  (shutting_down (controller s) = true -> _observer_stop_event s = true) /\
  (past_sentinel (controller s) = true -> _log_thread s = LGet ->
   In None (_log_queue s)).






(** A click at (100, 200), then 'h' and 'i', then the idle timer fires. *)
Definition click_then_type : list label :=
  [LStart true; LLogStep true; LShotStep ok_sct;
   LClick 100 200 "Button.left" true 1000;
   LShotStep ok_sct; LShotStep ok_sct; LLogStep true; LLogStep true;
   LPress (KeyCode (Some "h"%char)) 1001 1001;
   LPress (KeyCode (Some "i"%char)) 1002 1002;
   LLogStep true;
   LTimer 1004;
   LLogStep true; LLogStep true].





(** ** Further notions: log lines, schedules of one thread *)

Definition has_backslash (p : string) : bool :=
  existsb (Ascii.eqb backslash) (list_ascii_of_string p).

(** The path entries of an event that are not [None]. *)
Definition event_paths (e : event) : list string :=
  match e with
  | EClick _ _ _ _ fs rg =>
      match fs with Some p => [p] | None => [] end ++
      match rg with Some p => [p] | None => [] end
  | EAudioCommand _ p _ => [p]
  | _ => []
  end.

(** The Click event the screenshot worker builds for a dequeued item. *)
Definition click_event (sep : ascii) (sct : sct_env) (c : click_data) : event :=
  EClick (cd_timestamp c) (cd_button c) (cd_x c) (cd_y c)
    (if sct_shot_ok sct
     then Some (data_path sep (Py.str_int (cd_timestamp c) ++ "_fullscreen.png")%string)
     else None)
    (if region_capture_ok sct (cd_x c) (cd_y c)
     then Some (data_path sep (Py.str_int (cd_timestamp c) ++ "_region.png")%string)
     else None).

(** Three steps take the log worker once round its loop: the test of the
    stop signal, the [get], and [_log_event] with the outcome of the
    write. *)
Definition log_round (ok : bool) : list label :=
  [LLogStep true; LLogStep true; LLogStep ok].

Definition log_rounds (oks : list bool) : list label := flat_map log_round oks.

(** The lines that come of events whose writes have the given outcomes. *)
Fixpoint written (evs : list event) (oks : list bool) : list event :=
  match evs, oks with
  | e :: evs', ok :: oks' =>
      (if ok then [normalize_paths e] else []) ++ written evs' oks'
  | _, _ => []
  end.

Definition failures (oks : list bool) : nat := List.length (filter negb oks).

(** The same for the screenshot worker. *)
Definition shot_round (sct : sct_env) : list label :=
  [LShotStep sct; LShotStep sct; LShotStep sct].

Definition shot_rounds (scts : list sct_env) : list label :=
  flat_map shot_round scts.

Fixpoint click_events (sep : ascii) (cs : list click_data)
  (scts : list sct_env) : list (option event) :=
  match cs, scts with
  | c :: cs', sct :: scts' =>
      Some (click_event sep sct c) :: click_events sep cs' scts'
  | _, _ => []
  end.

(** Printable keys pressed one after the other, each with its time. *)
Definition type_keys (keys : list (ascii * Q)) : list label :=
  map (fun k => LPress (KeyCode (Some (fst k))) (snd k) (snd k)) keys.

(** The time of the last key of a run of keys. *)
Definition last_time (keys : list (ascii * Q)) (d : Q) : Q :=
  snd (last keys ("000"%char, d)).

(** The service is running, Enter and Tab have been pressed and are on the
    log queue. *)
Definition two_keys_queued : State :=
  after [LStart true; LPress (Key "enter") 10 10; LPress (Key "tab") 11 11]
        (init "/").

(** The service is running and two clicks are on the screenshot queue. *)
Definition two_clicks_queued : State :=
  after [LStart true; LClick 100 200 "Button.left" true 1000;
         LClick 5 5 "Button.right" true 1001] (init "/").

(** The service is running and nothing has happened yet. *)
Definition started : State := after [LStart true] (init "/").

(** One push-to-talk cycle as seen by the [i]-th recording thread: the key
    goes down, the thread starts and opens its stream, the blocks of
    samples come in, the key goes up, the thread closes the stream and
    saves. *)
Definition ptt_cycle (i : nat) (t : Q) (blocks : list Z) (now : Q)
  (save_ok : bool) : list label :=
  [LPress PUSH_TO_TALK_KEY t t; LAudio i StreamOk t true;
   LAudio i StreamOk t true]
  ++ map (LAudioFrame i false) blocks
  ++ [LRelease PUSH_TO_TALK_KEY; LAudio i StreamOk now true;
      LAudio i StreamOk now save_ok].

(** Typed text waiting in the key buffer has a flush timer pending. *)
Definition buffer_has_timer (s : State) : Prop :=
  _key_buffer s <> [] -> _buffer_flush_timer s = true.

(** The program points of the controller at which the listeners run. *)
Definition accepts_input (p : ctrl_pc) : bool :=
  match p with
  | CPoll | CStopListeners => true
  | _ => false
  end.

Definition listeners_off (s : State) : Prop :=
  _mouse_listener s <> Running /\ _keyboard_listener s <> Running.

Definition listeners_inv (s : State) : Prop :=
  accepts_input (controller s) = false -> listeners_off s.

(** Nothing of the service runs: no listener, no worker, no recording
    thread, no timer, and nothing is queued or logged. *)
Definition dormant (s : State) : Prop :=
  _mouse_listener s <> Running /\
  _keyboard_listener s <> Running /\
  _log_thread s = LNotStarted /\
  _screenshot_thread s = SNotStarted /\
  audio_threads s = [] /\
  _buffer_flush_timer s = false /\
  log_file s = [] /\
  _log_queue s = [] /\
  _screenshot_queue s = [].

(** The steps that take the log worker out of its loop once the stop signal
    is set, and the same for the screenshot worker. *)
Definition log_exit (s : State) : list label :=
  match _log_thread s with
  | LHead => [LLogStep true]
  | LGet =>
      match _log_queue s with
      | [] => [LLogTimeout; LLogStep true]
      | None :: _ => [LLogStep true]
      | Some _ :: _ => [LLogStep true; LLogStep true; LLogStep true]
      end
  | LLog _ => [LLogStep true; LLogStep true]
  | _ => []
  end.

Definition shot_exit (sct : sct_env) (s : State) : list label :=
  match _screenshot_thread s with
  | SHead => [LShotStep sct]
  | SGet =>
      match _screenshot_queue s with
      | [] => [LShotTimeout; LShotStep sct]
      | None :: _ => [LShotStep sct]
      | Some _ :: _ => [LShotStep sct; LShotStep sct; LShotStep sct]
      end
  | SProc _ => [LShotStep sct; LShotStep sct]
  | _ => []
  end.

(** The shape of the events the service produces, on a platform with
    separator [sep]: a Click event names the two images of its own
    timestamp, or [None]; the text of a Type event is not empty; the key of
    a KeyPress event is the representation of a special key; an
    AudioCommand event names the waveform of its own timestamp and carries
    the rounded quotient of a sample count by the sample rate. *)
Definition well_formed (sep : ascii) (e : event) : Prop :=
  match e with
  | EClick ts _ _ _ fs rg =>
      (fs = None \/
       fs = Some (data_path sep (Py.str_int ts ++ "_fullscreen.png")%string)) /\
      (rg = None \/
       rg = Some (data_path sep (Py.str_int ts ++ "_region.png")%string))
  | EType _ text => text <> EmptyString
  | EKeyPress _ k => exists name, k = special_key_repr name
  | EAudioCommand ts p d =>
      p = data_path sep (Py.str_int ts ++ "_audio.wav")%string /\
      exists n, d = Py.round2 (Py.truediv n AUDIO_SAMPLE_RATE)
  end.

Definition well_formed_item (sep : ascii) (i : option event) : Prop :=
  match i with
  | Some e => well_formed sep e
  | None => True
  end.

(** Every line of the log file, the event in flight and every queued event
    is well formed. *)
Definition log_well_formed (s : State) : Prop :=
  Forall (well_formed (os_sep s)) (log_file s) /\
  Forall (well_formed (os_sep s)) (in_flight s) /\
  Forall (well_formed_item (os_sep s)) (_log_queue s).


(** A call of [start_observer_func], and the number of them in a
    schedule. *)
Definition is_start (a : label) : bool :=
  match a with
  | LStart _ => true
  | _ => false
  end.

Definition starts (tr : list label) : nat := List.length (filter is_start tr).
(** * Properties *)

(** ** Region clamp *)

Section RegionClamp.

Variable mon : monitor.
Hypothesis wide : REGION_SIZE <= m_width mon.
Hypothesis high : REGION_SIZE <= m_height mon.

Lemma clamp_left_bounds (x y : Z) :
  m_left mon <= r_left (clamp_region mon x y) /\
  r_left (clamp_region mon x y) + REGION_SIZE <= m_left mon + m_width mon.
Proof. unfold clamp_region, REGION_SIZE in *; simpl; lia. Qed.

Lemma clamp_top_bounds (x y : Z) :
  m_top mon <= r_top (clamp_region mon x y) /\
  r_top (clamp_region mon x y) + REGION_SIZE <= m_top mon + m_height mon.
Proof. unfold clamp_region, REGION_SIZE in *; simpl; lia. Qed.

End RegionClamp.

(** C5, as the code has it: on a monitor that is at least 100 wide and 100
    high, the 100x100 region computed for a click at (x, y), inside the
    monitor or not, lies entirely within
    [[left, left + width) x [top, top + height)]. *)
Theorem region_clamp_within (mon : monitor) (x y : Z) :
  REGION_SIZE <= m_width mon ->
  REGION_SIZE <= m_height mon ->
  r_width (clamp_region mon x y) = 100 /\
  r_height (clamp_region mon x y) = 100 /\
  region_within mon (clamp_region mon x y).
Proof.
  intros Hw Hh.
  destruct (clamp_left_bounds mon Hw x y) as [Hl1 Hl2].
  destruct (clamp_top_bounds mon Hh x y) as [Ht1 Ht2].
  unfold region_within. change (r_width (clamp_region mon x y)) with REGION_SIZE.
  change (r_height (clamp_region mon x y)) with REGION_SIZE.
  repeat split; assumption.
Qed.

Lemma region_clamp_within_witness :
  region_within (mk_monitor 0 0 1920 1080)
                (clamp_region (mk_monitor 0 0 1920 1080) 1900 5).
Proof.
  apply (region_clamp_within (mk_monitor 0 0 1920 1080) 1900 5);
    unfold REGION_SIZE; simpl; lia.
Defined.

(** C5 as stated fails on a monitor smaller than the region: the click at
    (10, 10) lies inside a 50x50 monitor, and the region computed for it
    reaches to 100 on both axes. *)
Lemma region_clamp_small_monitor :
  inside_monitor (mk_monitor 0 0 50 50) 10 10 /\
  clamp_region (mk_monitor 0 0 50 50) 10 10 = mk_region 0 0 100 100 /\
  ~ region_within (mk_monitor 0 0 50 50)
                  (clamp_region (mk_monitor 0 0 50 50) 10 10).
Proof.
  split; [unfold inside_monitor; simpl; lia|].
  split; [reflexivity|].
  intros (_ & Hright & _). vm_compute in Hright. now apply Hright.
Qed.

(** ** Key buffer *)

Lemma flush_empty (now : Q) (s : State) :
  _key_buffer s = [] -> _flush_key_buffer now s = set_buffer_flush_timer false s.
Proof. intros H. unfold _flush_key_buffer. simpl. now rewrite H. Qed.

Lemma flush_nonempty (now : Q) (s : State) :
  _key_buffer s <> [] ->
  _flush_key_buffer now s =
  set_key_buffer []
    (log_put (Some (EType (flush_timestamp now s) (Py.join (_key_buffer s))))
       (out (MLoggedTyping (Py.join (_key_buffer s)))
          (set_buffer_flush_timer false s))).
Proof.
  intros H. unfold _flush_key_buffer, flush_timestamp. simpl.
  destruct (_key_buffer s); [congruence | reflexivity].
Qed.

Lemma flush_clears (now : Q) (s : State) :
  _key_buffer (_flush_key_buffer now s) = [] /\
  _buffer_flush_timer (_flush_key_buffer now s) = false.
Proof.
  unfold _flush_key_buffer. simpl.
  destruct (_key_buffer s) eqn:E; simpl; auto.
Qed.

Lemma on_press_last_key_time (k : key) (t t' : Q) (s : State) :
  _last_key_time (_on_press k t t' s) = Some t.
Proof.
  unfold _on_press.
  destruct (key_eqb k PUSH_TO_TALK_KEY).
  - simpl. destruct (_is_recording s); simpl; [reflexivity|].
    unfold _flush_key_buffer; simpl. destruct (_key_buffer s); reflexivity.
  - destruct k as [name | [c|]]; simpl; try reflexivity;
      unfold _flush_key_buffer; simpl; destruct (_key_buffer s); reflexivity.
Qed.

(** C3, as the code has it: a flush of a non-empty key buffer puts exactly
    one Type event on the log queue and empties the buffer; the text is the
    concatenation of the buffer, and the timestamp is the integer part of
    [_last_key_time], which every key press of any kind overwrites with its
    own time (the reading taken at the flush stands in when that time is
    unset or zero).  It is the time of the latest key press, not of the
    first buffered character. *)
Theorem flush_type_event (s : State) (now : Q) :
  _key_buffer s <> [] ->
  _log_queue (_flush_key_buffer now s) =
    _log_queue s ++
    [Some (EType (flush_timestamp now s) (Py.join (_key_buffer s)))] /\
  _key_buffer (_flush_key_buffer now s) = [] /\
  (forall k t t',
      flush_timestamp now (_on_press k t t' s) =
      if Py.truthy t then Py.int t else Py.int now).
Proof.
  intros H. split; [|split].
  - rewrite (flush_nonempty now s H). reflexivity.
  - apply flush_clears.
  - intros k t t'. unfold flush_timestamp.
    now rewrite on_press_last_key_time.
Qed.

Lemma flush_type_event_witness :
  _log_queue (_flush_key_buffer 30 typed_ab) = [Some (EType 20 "ab")].
Proof.
  apply (flush_type_event typed_ab 30). discriminate.
Defined.

(** C3 as stated fails: 'a' is typed at time 10 into the empty buffer and
    'b' at time 20; the flush stamps the Type event with 20, the time of
    the last key, and not with 10, the time the first character entered. *)
Lemma flush_timestamp_is_last_key :
  _key_buffer typed_ab = ["a"%char; "b"%char] /\
  _log_queue (_flush_key_buffer 30 typed_ab) = [Some (EType 20 "ab")] /\
  _log_queue (_flush_key_buffer 30 typed_ab) <> [Some (EType 10 "ab")].
Proof. split; [reflexivity | split; [reflexivity | discriminate]]. Qed.

(** ** Special keys, modifier keys *)

Lemma special_key_repr_space : special_key_repr "space" = " ".
Proof. reflexivity. Qed.

Lemma split_last_key_name (name : string) :
  has_dot name = false -> Py.split_last "." (str_key name) = name.
Proof.
  unfold has_dot, str_key. intros H. simpl. now rewrite H.
Qed.

Lemma special_key_repr_bracketed (name : string) :
  name <> "space" -> has_dot name = false ->
  special_key_repr name = ("[" ++ name ++ "]")%string.
Proof.
  intros Hn Hd. unfold special_key_repr, key_eqb, Key_space.
  destruct (String.eqb_spec name "space") as [E | _]; [contradiction|].
  now rewrite split_last_key_name.
Qed.

(** C4, as the code has it: for every press of a key without a [char]
    attribute (a member of [keyboard.Key]) other than the push-to-talk key,
    the handler first flushes the key buffer, putting the pending Type event
    (if any) on the log queue, and then puts exactly one KeyPress event right
    behind it; the name is the enum name in brackets (e.g. [[enter]]) and
    the space key is [" "]. *)
Theorem special_key_flush_then_key_press (s : State) (name : string) (t t' : Q) :
  key_eqb (Key name) PUSH_TO_TALK_KEY = false ->
  _log_queue (_on_press (Key name) t t' s) =
    _log_queue s ++
    match _key_buffer s with
    | [] => []
    | b => [Some (EType (if Py.truthy t then Py.int t else Py.int t')
                        (Py.join b))]
    end ++
    [Some (EKeyPress (Py.int t) (special_key_repr name))] /\
  _key_buffer (_on_press (Key name) t t' s) = [] /\
  special_key_repr "space" = " " /\
  special_key_repr "enter" = "[enter]" /\
  (name <> "space" -> has_dot name = false ->
   special_key_repr name = ("[" ++ name ++ "]")%string).
Proof.
  intros Hk. unfold _on_press. rewrite Hk.
  split; [|split; [|split; [|split]]].
  - unfold _flush_key_buffer, log_put, restart_timer. simpl.
    destruct (_key_buffer s); simpl.
    + reflexivity.
    + now rewrite <- app_assoc.
  - unfold log_put, restart_timer. simpl. apply flush_clears.
  - reflexivity.
  - reflexivity.
  - apply special_key_repr_bracketed.
Qed.

Lemma special_key_flush_then_key_press_witness :
  _log_queue (_on_press (Key "enter") 30 30 typed_ab) =
  [Some (EType 30 "ab"); Some (EKeyPress 30 "[enter]")].
Proof.
  apply (special_key_flush_then_key_press typed_ab "enter" 30 30).
  reflexivity.
Defined.

(** C4 as stated fails for two kinds of non-printable key.  The push-to-talk
    key [Key.ctrl_r] is a special key: pressed after 'a' and 'b' it flushes
    the buffer and puts no KeyPress event on the queue, and pressed while
    recording it does not even flush.  A key whose [char] is [None] flushes
    and puts no KeyPress event either. *)
Lemma special_key_without_key_press :
  _log_queue (_on_press PUSH_TO_TALK_KEY 30 30 typed_ab) =
    [Some (EType 30 "ab")] /\
  _log_queue (_on_press PUSH_TO_TALK_KEY 30 30 (set_is_recording true typed_ab))
    = [] /\
  _key_buffer (_on_press PUSH_TO_TALK_KEY 30 30 (set_is_recording true typed_ab))
    = ["a"%char; "b"%char] /\
  _log_queue (_on_press (KeyCode None) 30 30 typed_ab) = [Some (EType 30 "ab")].
Proof. repeat (split; [reflexivity|]). reflexivity. Qed.


(** C10: with an empty key buffer [_flush_key_buffer] only cancels the
    pending timer and leaves the log queue alone; a second flush right after
    a flush changes nothing, so two flushes in a row emit at most one Type
    event; and the text of a Type event that a flush emits is never empty. *)
Theorem flush_empty_buffer_noop (s : State) (now now' : Q) :
  (_key_buffer s = [] ->
   _flush_key_buffer now s = set_buffer_flush_timer false s /\
   _log_queue (_flush_key_buffer now s) = _log_queue s) /\
  _flush_key_buffer now' (_flush_key_buffer now s) = _flush_key_buffer now s /\
  exists l,
    _log_queue (_flush_key_buffer now' (_flush_key_buffer now s)) =
      _log_queue s ++ l /\
    (List.length l <= 1)%nat /\
    (forall i, In i l -> exists ts text, i = Some (EType ts text) /\ text <> EmptyString).
Proof.
  split; [|split].
  - intros H. rewrite (flush_empty now s H). split; reflexivity.
  - rewrite flush_empty; [|apply flush_clears].
    destruct (flush_clears now s) as [_ Ht].
    destruct (_flush_key_buffer now s); simpl in *; now subst.
  - rewrite (flush_empty now'); [|apply flush_clears].
    unfold _flush_key_buffer, log_put. simpl.
    destruct (_key_buffer s) as [| c b] eqn:E; simpl.
    + exists []. rewrite app_nil_r.
      split; [reflexivity|]. split; [simpl; lia | intros i []].
    + exists [Some (EType (flush_timestamp now s) (Py.join (c :: b)))].
      split; [reflexivity|]. split; [simpl; lia|].
      intros i [<- | []]. eexists _, _. split; [reflexivity | discriminate].
Qed.

Lemma flush_empty_buffer_noop_witness :
  _flush_key_buffer 5 (init "/") = set_buffer_flush_timer false (init "/") /\
  _log_queue (_flush_key_buffer 5 (init "/")) = _log_queue (init "/").
Proof.
  apply (flush_empty_buffer_noop (init "/") 5 5). reflexivity.
Defined.


(** ** Screenshot worker *)

Lemma safe_grab_region_output (sct : sct_env) (x y : Z) (s : State) :
  exists msgs,
    snd (_safe_grab_region sct x y s) = set_output (output s ++ msgs) s /\
    (fst (_safe_grab_region sct x y s) = None ->
     exists m, In m msgs /\ region_warning m = true) /\
    (fst (_safe_grab_region sct x y s) <> None ->
     msgs = [] /\
     exists mon, nth_error (sct_monitors sct) 1 = Some mon /\
       fst (_safe_grab_region sct x y s) = Some (clamp_region mon x y) /\
       sct_grab_ok sct (clamp_region mon x y) = true).
Proof.
  unfold _safe_grab_region.
  destruct (sct_monitors sct) as [| m0 [| mon rest]].
  - exists [MNoPrimaryMonitor]. simpl. split; [reflexivity|]. split.
    + intros _. exists MNoPrimaryMonitor. simpl; auto.
    + intros H; now elim H.
  - exists [MNoPrimaryMonitor]. simpl. split; [reflexivity|]. split.
    + intros _. exists MNoPrimaryMonitor. simpl; auto.
    + intros H; now elim H.
  - destruct (sct_grab_ok sct (clamp_region mon x y)) eqn:G; simpl.
    + exists []. split; [rewrite app_nil_r; destruct s; reflexivity|]. split.
      * discriminate.
      * intros _. split; [reflexivity|]. exists mon. auto.
    + exists [MErrorGrabbing (clamp_region mon x y)].
      split; [reflexivity|]. split.
      * intros _. exists (MErrorGrabbing (clamp_region mon x y)). simpl; auto.
      * intros H; now elim H.
Qed.

(** Closes one case of the screenshot step: [l] is the list of warnings of
    the case and [w] the warning of its failed region capture. *)
Ltac shot_case l w :=
  simpl; eexists _, _, _, l;
  split; [reflexivity|]; split; [reflexivity|]; split; [reflexivity|];
  split; [simpl; rewrite ?app_nil_r, <- ?app_assoc; reflexivity|];
  split; [reflexivity|];
  split; [intros HF; try discriminate HF; simpl; auto|];
  split; [reflexivity|];
  intros HF; try discriminate HF;
  exists w; (split; [simpl; auto | reflexivity]).

(** C6: for every click item the screenshot worker has dequeued, its next
    step puts exactly one Click event on the log queue, with the timestamp,
    button, x and y of the item, and takes the worker back to the head of
    its loop.  A path entry is the file name when its capture succeeded and
    [None] when it failed, and every failed capture leaves a warning in the
    output; the event is put on the queue whatever the captures did. *)
Theorem click_event_always_forwarded (sct : sct_env) (c : click_data) (s : State) :
  _screenshot_thread s = SProc c ->
  exists s' fs rg msgs,
    step (LShotStep sct) s = Some s' /\
    _screenshot_thread s' = SHead /\
    _log_queue s' =
      _log_queue s ++
      [Some (EClick (cd_timestamp c) (cd_button c) (cd_x c) (cd_y c) fs rg)] /\
    output s' = output s ++ msgs /\
    fs = (if sct_shot_ok sct
          then Some (data_path (os_sep s)
                       (Py.str_int (cd_timestamp c) ++ "_fullscreen.png")%string)
          else None) /\
    (sct_shot_ok sct = false -> In MErrorFullScreen msgs) /\
    rg = (if region_capture_ok sct (cd_x c) (cd_y c)
          then Some (data_path (os_sep s)
                       (Py.str_int (cd_timestamp c) ++ "_region.png")%string)
          else None) /\
    (region_capture_ok sct (cd_x c) (cd_y c) = false ->
     exists m, In m msgs /\ region_warning m = true).
Proof.
  intros Hpc. unfold step, _screenshot_worker. rewrite Hpc.
  unfold process_click, region_capture_ok, _safe_grab_region.
  destruct (sct_shot_ok sct) eqn:Hshot;
    destruct (sct_monitors sct) as [| m0 [| mon rest]].
  - shot_case [MNoPrimaryMonitor] MNoPrimaryMonitor.
  - shot_case [MNoPrimaryMonitor] MNoPrimaryMonitor.
  - destruct (sct_grab_ok sct (clamp_region mon (cd_x c) (cd_y c))) eqn:G;
      [destruct (to_png_ok sct) eqn:P|].
    + shot_case (@nil msg) MErrorSavingRegion.
    + shot_case [MErrorSavingRegion] MErrorSavingRegion.
    + shot_case [MErrorGrabbing (clamp_region mon (cd_x c) (cd_y c))]
        (MErrorGrabbing (clamp_region mon (cd_x c) (cd_y c))).
  - shot_case [MErrorFullScreen; MNoPrimaryMonitor] MNoPrimaryMonitor.
  - shot_case [MErrorFullScreen; MNoPrimaryMonitor] MNoPrimaryMonitor.
  - destruct (sct_grab_ok sct (clamp_region mon (cd_x c) (cd_y c))) eqn:G;
      [destruct (to_png_ok sct) eqn:P|].
    + shot_case [MErrorFullScreen] MErrorSavingRegion.
    + shot_case [MErrorFullScreen; MErrorSavingRegion] MErrorSavingRegion.
    + shot_case [MErrorFullScreen;
                 MErrorGrabbing (clamp_region mon (cd_x c) (cd_y c))]
        (MErrorGrabbing (clamp_region mon (cd_x c) (cd_y c))).
Qed.

Lemma click_event_always_forwarded_witness :
  exists s',
    step (LShotStep failing_sct) click_dequeued = Some s' /\
    _screenshot_thread s' = SHead /\
    _log_queue s' =
      [Some (EClick 1700000000 "Button.left" 100 200 None None)].
Proof.
  destruct (click_event_always_forwarded failing_sct
              (mk_click 1700000000 "Button.left" 100 200) click_dequeued)
    as (s' & fs & rg & msgs & Hstep & Hpc & Hq & _ & Hfs & _ & Hrg & _).
  - vm_compute. reflexivity.
  - exists s'. split; [exact Hstep|]. split; [exact Hpc|].
    rewrite Hq, Hfs, Hrg. vm_compute. reflexivity.
Defined.

(** ** Push-to-talk and the recording task *)


Lemma record_audio_finish_queue (now : Q) (save_ok : bool) (s : State) :
  _log_queue (record_audio_finish now save_ok s) =
  _log_queue s ++
  match _audio_frames s, save_ok with
  | _ :: _, true =>
      [Some (EAudioCommand (Py.int now)
               (data_path (os_sep s) (Py.str_int (Py.int now) ++ "_audio.wav")%string)
               (Py.round2 (Py.truediv (total_samples (_audio_frames s))
                                      AUDIO_SAMPLE_RATE)))]
  | _, _ => []
  end.
Proof.
  unfold record_audio_finish.
  destruct (_audio_frames s), save_ok; simpl; now rewrite ?app_nil_r.
Qed.


(** ** The log worker inside the running service *)

Lemma extends_refl (s : State) : extends s s.
Proof.
  split; [reflexivity|]. split; [reflexivity|].
  exists []. now rewrite app_nil_r.
Qed.

Lemma extends_trans (s1 s2 s3 : State) :
  extends s1 s2 -> extends s2 s3 -> extends s1 s3.
Proof.
  intros (F1 & T1 & n1 & Q1) (F2 & T2 & n2 & Q2).
  split; [congruence|]. split; [congruence|].
  exists (n1 ++ n2). now rewrite Q2, Q1, app_assoc.
Qed.

(** Splits on whatever a hypothesis or the goal still matches on. *)
Ltac case_split :=
  repeat match goal with
    | H : context [match ?x with _ => _ end] |- _ =>
        destruct x eqn:?; try discriminate H
    | H : context [if ?x then _ else _] |- _ =>
        destruct x eqn:?; try discriminate H
    | H : Some _ = Some _ |- _ => injection H as H; subst
    end.

Ltac solve_extends :=
  unfold extends; simpl;
  split; [reflexivity|]; split; [reflexivity|];
  first [ exists []; now rewrite app_nil_r
        | eexists; rewrite <- ?app_assoc; reflexivity ].

Lemma flush_extends (now : Q) (s : State) : extends s (_flush_key_buffer now s).
Proof.
  unfold _flush_key_buffer. simpl. destruct (_key_buffer s); solve_extends.
Qed.

Lemma on_press_extends (k : key) (t t' : Q) (s : State) :
  extends s (_on_press k t t' s).
Proof.
  unfold _on_press, _flush_key_buffer. simpl.
  destruct (key_eqb k PUSH_TO_TALK_KEY); [destruct (_is_recording s)|];
    simpl; [solve_extends | destruct (_key_buffer s); solve_extends |].
  destruct k as [name | [c|]]; simpl; try destruct (_key_buffer s);
    solve_extends.
Qed.

Lemma on_release_extends (k : key) (s : State) : extends s (_on_release k s).
Proof.
  unfold _on_release.
  destruct (key_eqb k PUSH_TO_TALK_KEY && _is_recording s); solve_extends.
Qed.

Lemma on_click_extends x y b p now (s : State) :
  extends s (_on_click x y b p now s).
Proof. unfold _on_click. destruct p; solve_extends. Qed.

Lemma process_click_extends (sct : sct_env) (c : click_data) (s : State) :
  extends s (process_click sct c s).
Proof.
  unfold process_click, _safe_grab_region.
  destruct (sct_shot_ok sct);
    destruct (sct_monitors sct) as [| m0 [| mon rest]]; simpl;
    try destruct (sct_grab_ok sct _); try destruct (to_png_ok sct);
    solve_extends.
Qed.

Lemma audio_except_extends (o : stream_outcome) (s : State) :
  extends s (audio_except o s).
Proof. destruct o as [| [|] |]; solve_extends. Qed.

Lemma record_audio_finish_extends (now : Q) (ok : bool) (s : State) :
  extends s (record_audio_finish now ok s).
Proof.
  unfold record_audio_finish. destruct (_audio_frames s), ok; solve_extends.
Qed.

(** [extends] through a function [f] with lemma [lem : extends s (f s)],
    wrapped in assignments to other globals. *)
Ltac ext_via lem :=
  first [ apply lem
        | eapply extends_trans; [apply lem | solve_extends]
        | eapply extends_trans;
          [| solve_extends]; eapply extends_trans; [| apply lem]; solve_extends ].

(** Every step of a thread other than the log worker, once the service has
    been started, leaves the log file and the log worker alone and at most
    adds to the back of the log queue. *)
Lemma step_extends (a : label) (s s' : State) :
  step a s = Some s' ->
  match a with
  | LStart _ | LLogStep _ | LLogTimeout => True
  | _ => extends s s'
  end.
Proof.
  intros H. destruct a; simpl in H; auto.
  - injection H as <-. solve_extends.
  - unfold start_observer_func in H. case_split; try solve_extends.
    ext_via flush_extends.
  - unfold ctrl_join_timeout in H. case_split; solve_extends.
  - unfold _screenshot_worker in H. case_split; try solve_extends.
    ext_via process_click_extends.
  - unfold shot_timeout in H. case_split; solve_extends.
  - case_split. apply on_click_extends.
  - case_split. apply on_press_extends.
  - case_split. apply on_release_extends.
  - case_split. apply flush_extends.
  - unfold _record_audio_task in H. case_split; try solve_extends;
      first [ ext_via audio_except_extends
            | ext_via record_audio_finish_extends
            | match goal with b : bool |- context [if ?b then _ else _] =>
                destruct b; solve_extends
              end ].
  - unfold audio_frame in H. case_split; destruct status; solve_extends.
Qed.

Ltac split_goal :=
  repeat match goal with
    | |- context [match ?x with _ => _ end] => destruct x
    | |- context [if ?x then _ else _] => destruct x
    end.

Ltac solve_same :=
  unfold same_control; simpl; split_goal; simpl; split; reflexivity.

Lemma flush_same (now : Q) (s : State) : same_control s (_flush_key_buffer now s).
Proof. unfold _flush_key_buffer. solve_same. Qed.

Lemma on_press_same (k : key) (t t' : Q) (s : State) :
  same_control s (_on_press k t t' s).
Proof. unfold _on_press, _flush_key_buffer. solve_same. Qed.

Lemma process_click_same (sct : sct_env) (c : click_data) (s : State) :
  same_control s (process_click sct c s).
Proof.
  unfold process_click, _safe_grab_region.
  destruct (sct_shot_ok sct);
    destruct (sct_monitors sct) as [| m0 [| mon rest]]; simpl;
    try destruct (sct_grab_ok sct _); try destruct (to_png_ok sct);
    solve_same.
Qed.

Lemma record_audio_finish_same (now : Q) (ok : bool) (s : State) :
  same_control s (record_audio_finish now ok s).
Proof. unfold record_audio_finish. solve_same. Qed.

(** Only the caller of [start_observer_func] / [stop_observer_func] and the
    thread inside [start_observer_func] touch the controller and the stop
    signal. *)
Lemma step_same_control (a : label) (s s' : State) :
  step a s = Some s' ->
  match a with
  | LStart _ | LStop | LCtrl _ | LCtrlJoinTimeout => True
  | _ => same_control s s'
  end.
Proof.
  intros H. destruct a; simpl in H; auto.
  - unfold _log_worker, _log_event in H. case_split; solve_same.
  - unfold log_timeout in H. case_split; solve_same.
  - unfold _screenshot_worker in H. case_split; try solve_same.
    exact (process_click_same sct c s).
  - unfold shot_timeout in H. case_split; solve_same.
  - case_split. unfold _on_click. solve_same.
  - case_split. apply on_press_same.
  - case_split. unfold _on_release. solve_same.
  - case_split. apply flush_same.
  - unfold _record_audio_task in H. case_split; try solve_same;
      try (unfold audio_except; solve_same).
    exact (record_audio_finish_same now save_ok s).
  - unfold audio_frame in H. case_split; solve_same.
Qed.

(** The controller never goes back to [CIdle]. *)
Lemma step_started (a : label) (s s' : State) :
  step a s = Some s' -> controller s <> CIdle -> controller s' <> CIdle.
Proof.
  intros H Hc. pose proof (step_same_control a s s' H) as Hs.
  destruct a; try (rewrite (proj1 Hs); exact Hc); simpl in H.
  - destruct (controller s); congruence.
  - injection H as <-. exact Hc.
  - unfold start_observer_func in H.
    destruct (controller s) eqn:E; try discriminate H; try congruence;
      case_split; simpl; congruence.
  - unfold ctrl_join_timeout in H.
    destruct (controller s) eqn:E; try discriminate H; case_split;
      simpl; congruence.
Qed.

Lemma extends_stream (s s' : State) :
  extends s s' -> exists k, log_stream s' = log_stream s ++ k.
Proof.
  intros (F & T & new & Hq).
  exists (map normalize_paths (queued_events new)).
  unfold log_stream, in_flight, queued_events. rewrite F, T, Hq.
  now rewrite flat_map_app, app_assoc, map_app, app_assoc.
Qed.

Lemma extends_file (s s' : State) :
  extends s s' -> exists w, log_file s' = log_file s ++ w.
Proof. intros (F & _). exists []. now rewrite app_nil_r. Qed.

(** A step of the log worker whose write succeeds moves an event from the
    queue towards the file and changes nothing in the stream. *)
Lemma log_step_stream (s s' : State) :
  _log_worker true s = Some s' -> log_stream s' = log_stream s.
Proof.
  unfold _log_worker, log_stream, in_flight. intros H.
  destruct (_log_thread s) eqn:T; try discriminate H.
  - destruct (_observer_stop_event s); injection H as <-; reflexivity.
  - destruct (_log_queue s) as [| [e |] q] eqn:Hq; try discriminate H;
      injection H as <-; simpl; reflexivity.
  - injection H as <-. simpl. now rewrite <- app_assoc.
Qed.

Lemma log_step_file (ok : bool) (s s' : State) :
  _log_worker ok s = Some s' -> exists w, log_file s' = log_file s ++ w.
Proof.
  unfold _log_worker, _log_event. intros H.
  destruct (_log_thread s); try discriminate H; case_split; simpl;
    first [ now (exists []; rewrite app_nil_r) | now eexists ].
Qed.

Lemma step_stream (a : label) (s s' : State) :
  controller s <> CIdle -> writes_succeed a = true -> step a s = Some s' ->
  exists k, log_stream s' = log_stream s ++ k.
Proof.
  intros Hc Hw H. pose proof (step_extends a s s' H) as He.
  destruct a; try (apply extends_stream; exact He); simpl in H.
  - destruct (controller s); congruence.
  - destruct write_ok; [|discriminate Hw].
    exists []. rewrite app_nil_r. now apply log_step_stream.
  - unfold log_timeout in H. case_split. exists [].
    rewrite app_nil_r. unfold log_stream, in_flight. simpl.
    now rewrite Heql.
Qed.

Lemma step_file (a : label) (s s' : State) :
  controller s <> CIdle -> step a s = Some s' ->
  exists w, log_file s' = log_file s ++ w.
Proof.
  intros Hc H. pose proof (step_extends a s s' H) as He.
  destruct a; try (apply extends_file; exact He); simpl in H.
  - destruct (controller s); congruence.
  - now apply (log_step_file write_ok).
  - unfold log_timeout in H. case_split. exists []. now rewrite app_nil_r.
Qed.

(** Once the log worker has left its loop every step extends. *)
Lemma step_after_exit (a : label) (s s' : State) :
  controller s <> CIdle -> _log_thread s = LDone -> step a s = Some s' ->
  extends s s'.
Proof.
  intros Hc Hd H. pose proof (step_extends a s s' H) as He.
  destruct a; try exact He; simpl in H.
  - destruct (controller s); congruence.
  - unfold _log_worker in H. rewrite Hd in H. discriminate H.
  - unfold log_timeout in H. rewrite Hd in H. discriminate H.
Qed.

Lemma run_started (tr : list label) (s s' : State) :
  run tr s = Some s' -> controller s <> CIdle -> controller s' <> CIdle.
Proof.
  revert s. induction tr as [| a tr IH]; simpl; intros s H Hc.
  - now injection H as <-.
  - destruct (step a s) as [s1 |] eqn:E; [|discriminate H].
    eapply IH; eauto using step_started.
Qed.

Lemma run_stream (tr : list label) (s s' : State) :
  controller s <> CIdle -> forallb writes_succeed tr = true ->
  run tr s = Some s' ->
  exists k, log_stream s' = log_stream s ++ k.
Proof.
  revert s. induction tr as [| a tr IH]; simpl; intros s Hc Hw H.
  - injection H as <-. exists []. now rewrite app_nil_r.
  - destruct (step a s) as [s1 |] eqn:E; [|discriminate H].
    apply andb_prop in Hw as [Hw1 Hw2].
    destruct (step_stream a s s1 Hc Hw1 E) as [k1 E1].
    destruct (IH s1 (step_started _ _ _ E Hc) Hw2 H) as [k2 E2].
    exists (k1 ++ k2). now rewrite E2, E1, app_assoc.
Qed.

Lemma run_file (tr : list label) (s s' : State) :
  controller s <> CIdle -> run tr s = Some s' ->
  exists w, log_file s' = log_file s ++ w.
Proof.
  revert s. induction tr as [| a tr IH]; simpl; intros s Hc H.
  - injection H as <-. exists []. now rewrite app_nil_r.
  - destruct (step a s) as [s1 |] eqn:E; [|discriminate H].
    destruct (step_file a s s1 Hc E) as [w1 E1].
    destruct (IH s1 (step_started _ _ _ E Hc) H) as [w2 E2].
    exists (w1 ++ w2). now rewrite E2, E1, app_assoc.
Qed.

Lemma run_after_exit (tr : list label) (s s' : State) :
  controller s <> CIdle -> _log_thread s = LDone -> run tr s = Some s' ->
  extends s s'.
Proof.
  revert s. induction tr as [| a tr IH]; simpl; intros s Hc Hd H.
  - injection H as <-. apply extends_refl.
  - destruct (step a s) as [s1 |] eqn:E; [|discriminate H].
    pose proof (step_after_exit a s s1 Hc Hd E) as He.
    eapply extends_trans; [exact He|].
    apply IH; [eauto using step_started | | exact H].
    destruct He as (_ & T & _). congruence.
Qed.

(** C1, as the code has it.  Once the service is started and as long as no
    write to the log file fails, along every schedule:
    - the log file followed by the event in flight and the events queued
      only ever grows at its end: the log worker takes events off the queue
      in arrival order and writes each dequeued event once, nothing is
      duplicated or reordered, and a sentinel never becomes a line;
    - the worker leaves its loop when it dequeues the sentinel, and also
      when it finds the stop signal set at the head of the loop; in both
      cases it leaves at once, without draining what is queued;
    - after the worker has left, the log file does not change any more and
      nothing is taken off the queue. *)
Theorem log_worker_fifo_no_drain (tr : list label) (s s' : State) :
  controller s <> CIdle ->
  forallb writes_succeed tr = true ->
  run tr s = Some s' ->
  (exists k, log_stream s' = log_stream s ++ k) /\
  (exists w, log_file s' = log_file s ++ w) /\
  (forall q ok, _log_thread s = LGet -> _log_queue s = None :: q ->
     exists s1, step (LLogStep ok) s = Some s1 /\ _log_thread s1 = LDone /\
       log_file s1 = log_file s /\ _log_queue s1 = q) /\
  (forall ok, _log_thread s = LHead -> _observer_stop_event s = true ->
     exists s1, step (LLogStep ok) s = Some s1 /\ _log_thread s1 = LDone /\
       log_file s1 = log_file s /\ _log_queue s1 = _log_queue s) /\
  (_log_thread s = LDone ->
     log_file s' = log_file s /\ _log_thread s' = LDone /\
     exists new, _log_queue s' = _log_queue s ++ new).
Proof.
  intros Hc Hw H.
  split; [eapply run_stream; eauto|].
  split; [eapply run_file; eauto|].
  split; [|split].
  - intros q ok T Hq. simpl. unfold _log_worker. rewrite T, Hq.
    eexists. split; [reflexivity|]. simpl. auto.
  - intros ok T Hs. simpl. unfold _log_worker. rewrite T, Hs.
    eexists. split; [reflexivity|]. simpl. auto.
  - intros Hd. destruct (run_after_exit tr s s' Hc Hd H) as (F & T & Hq).
    split; [exact F|]. split; [congruence | exact Hq].
Qed.


Lemma log_worker_fifo_no_drain_witness :
  exists k,
    log_stream (after [LPress (Key "tab") 11 11; LStop; LLogStep true;
                       LLogStep true] running_with_event)
    = log_stream running_with_event ++ k.
Proof.
  apply (log_worker_fifo_no_drain
           [LPress (Key "tab") 11 11; LStop; LLogStep true; LLogStep true]
           running_with_event);
    [vm_compute; discriminate | reflexivity | vm_compute; reflexivity].
Defined.

(** C1 as stated fails.  Enter and Tab are pressed, in this order, before
    [stop_observer_func] is called; when the controller has reported
    completion the log file holds the Enter event alone, and the Tab event
    is still on the queue, in front of the sentinel that nobody received. *)
Lemma stop_leaves_backlog_unwritten :
  exists s,
    run stop_with_backlog (init "/") = Some s /\
    controller s = CDone /\
    _log_thread s = LDone /\
    In MStopped (output s) /\
    log_file s = [EKeyPress 10 "[enter]"] /\
    _log_queue s = [Some (EKeyPress 11 "[tab]"); None] /\
    ~ In (EKeyPress 11 "[tab]") (log_file s).
Proof.
  eexists. split; [vm_compute; reflexivity|].
  split; [reflexivity|]. split; [reflexivity|].
  split; [vm_compute; tauto|]. split; [reflexivity|]. split; [reflexivity|].
  vm_compute. intros [H | []]. discriminate H.
Qed.

(** ** The controller *)

Lemma ctrl_step_stop (now : Q) (s s' : State) :
  start_observer_func now s = Some s' ->
  _observer_stop_event s' = _observer_stop_event s.
Proof.
  unfold start_observer_func. intros H.
  destruct (controller s); try discriminate H;
    try (injection H as <-; reflexivity).
  - destruct (_observer_stop_event s) eqn:Es; injection H as <-;
      simpl; congruence.
  - destruct (_screenshot_thread s); try discriminate H.
    injection H as <-; reflexivity.
  - destruct (_log_thread s); try discriminate H.
    injection H as <-; reflexivity.
  - injection H as <-. simpl. apply (flush_same now (out MFlushingFinal s)).
Qed.

(** While the controller is in its shutdown sequence, or has returned, the
    stop signal is set. *)
Lemma step_shutdown_stop (a : label) (s s' : State) :
  step a s = Some s' ->
  (shutting_down (controller s) = true -> _observer_stop_event s = true) ->
  shutting_down (controller s') = true -> _observer_stop_event s' = true.
Proof.
  intros H Inv. pose proof (step_same_control a s s' H) as Hs.
  destruct a; try (rewrite (proj1 Hs), (proj2 Hs); exact Inv); simpl in H.
  - destruct (controller s); try discriminate H. injection H as <-.
    unfold start_observer_begin. destruct mkdir_ok; simpl; discriminate.
  - injection H as <-. reflexivity.
  - rewrite (ctrl_step_stop now s s' H). unfold start_observer_func in H.
    destruct (controller s) eqn:E; try discriminate H;
      try (intros _; apply Inv; reflexivity).
    + destruct (_observer_stop_event s) eqn:Es; [reflexivity|].
      injection H as <-. rewrite E. discriminate.
  - unfold ctrl_join_timeout in H.
    destruct (controller s) eqn:E; try discriminate H;
      injection H as <-; simpl; intros _; apply Inv; reflexivity.
Qed.

Lemma run_shutdown_stop (tr : list label) (s s' : State) :
  run tr s = Some s' ->
  (shutting_down (controller s) = true -> _observer_stop_event s = true) ->
  shutting_down (controller s') = true -> _observer_stop_event s' = true.
Proof.
  revert s. induction tr as [| a tr IH]; simpl; intros s H Inv.
  - now injection H as <-.
  - destruct (step a s) as [s1 |] eqn:E; [|discriminate H].
    eapply IH; eauto using step_shutdown_stop.
Qed.

(** The stop signal is set by [stop_observer_func] and by nothing else. *)
Lemma step_stop_set (a : label) (s s' : State) :
  step a s = Some s' -> _observer_stop_event s' = true ->
  _observer_stop_event s = true \/ is_stop a = true.
Proof.
  intros H Hs'. pose proof (step_same_control a s s' H) as Hs.
  destruct a; try (left; rewrite <- (proj2 Hs); exact Hs'); simpl in H.
  - destruct (controller s); try discriminate H. injection H as <-.
    unfold start_observer_begin in Hs'. destruct mkdir_ok; simpl in Hs'.
    + discriminate Hs'.
    + left. exact Hs'.
  - now right.
  - left. now rewrite <- (ctrl_step_stop now s s' H).
  - left. unfold ctrl_join_timeout in H. case_split; exact Hs'.
Qed.

Lemma run_stop_set (tr : list label) (s s' : State) :
  run tr s = Some s' -> _observer_stop_event s' = true ->
  _observer_stop_event s = true \/ existsb is_stop tr = true.
Proof.
  revert s. induction tr as [| a tr IH]; simpl; intros s H Hs'.
  - injection H as <-. now left.
  - destruct (step a s) as [s1 |] eqn:E; [|discriminate H].
    destruct (IH s1 H Hs') as [H1 | H1].
    + destruct (step_stop_set a s s1 E H1) as [H2 | H2]; [now left|].
      right. now rewrite H2.
    + right. rewrite H1. apply orb_true_r.
Qed.

Lemma shutdown_terminates (now : Q) (s : State) :
  controller s = CPoll -> _observer_stop_event s = true ->
  exists s', run (shutdown_timed_out now) s = Some s' /\ controller s' = CDone.
Proof.
  intros Hc Hs. unfold shutdown_timed_out, run, step, start_observer_func.
  rewrite Hc, Hs. simpl. eexists. split; reflexivity.
Qed.

(** C8, as the code has it: [start_observer_func] keeps its caller inside
    the supervising loop.  Along every schedule it has returned only if
    [stop_observer_func] was called and the stop signal is set; as long as
    the signal is not set a turn of the loop changes nothing; and once the
    signal is set the seven steps of the shutdown sequence, the two joins
    cut off by their timeouts at the latest, take it to its return. *)
Theorem start_blocks_until_stop
  (tr : list label) (sep : ascii) (s : State) (now : Q) :
  run tr (init sep) = Some s ->
  (controller s = CDone ->
   existsb is_stop tr = true /\ _observer_stop_event s = true) /\
  (controller s = CPoll -> _observer_stop_event s = false ->
   step (LCtrl now) s = Some s) /\
  (controller s = CPoll -> _observer_stop_event s = true ->
   exists s', run (shutdown_timed_out now) s = Some s' /\ controller s' = CDone).
Proof.
  intros H. split; [|split].
  - intros Hd.
    assert (Hs : _observer_stop_event s = true).
    { apply (run_shutdown_stop tr (init sep) s H); [discriminate|].
      now rewrite Hd. }
    split; [|exact Hs].
    destruct (run_stop_set tr (init sep) s H Hs) as [H0 | H0];
      [discriminate H0 | exact H0].
  - intros Hc Hs. simpl. unfold start_observer_func. now rewrite Hc, Hs.
  - apply shutdown_terminates.
Qed.

Lemma start_blocks_until_stop_witness :
  step (LCtrl 2) (after [LStart true; LCtrl 1] (init "/")) =
  Some (after [LStart true; LCtrl 1] (init "/")).
Proof.
  apply (start_blocks_until_stop [LStart true; LCtrl 1] "/"
           (after [LStart true; LCtrl 1] (init "/")) 2);
    vm_compute; reflexivity.
Defined.

(** C8 as stated fails: the service is started and the stop signal is never
    set; after three turns of the supervising loop [start_observer_func]
    is still inside the loop and has not returned. *)
Lemma start_does_not_return_without_stop :
  exists s,
    run [LStart true; LCtrl 1; LCtrl 2; LCtrl 3] (init "/") = Some s /\
    _observer_stop_event s = false /\
    controller s = CPoll /\
    controller s <> CDone.
Proof.
  eexists. split; [vm_compute; reflexivity|].
  split; [reflexivity|]. split; [reflexivity | discriminate].
Qed.

(** The thread inside [start_observer_func] goes through its shutdown
    sequence in one order only: listeners stopped, sentinels put, screenshot
    worker joined, log worker joined, key buffer flushed, completion
    reported. *)
Lemma shutdown_order (now : Q) (s s' : State) :
  start_observer_func now s = Some s' ->
  match controller s with
  | CPoll =>
      controller s' = (if _observer_stop_event s then CStopListeners else CPoll)
  | CStopListeners =>
      controller s' = CSentinels /\
      _mouse_listener s' <> Running /\ _keyboard_listener s' <> Running
  | CSentinels =>
      controller s' = CJoinShot /\
      _screenshot_queue s' = _screenshot_queue s ++ [None] /\
      _log_queue s' = _log_queue s ++ [None]
  | CJoinShot => controller s' = CJoinLog /\ _screenshot_thread s = SDone
  | CJoinLog => controller s' = CFlush /\ _log_thread s = LDone
  | CFlush =>
      controller s' = CReport /\ _key_buffer s' = [] /\
      _log_queue s' = _log_queue (_flush_key_buffer now s)
  | CReport => controller s' = CDone /\ output s' = output s ++ [MStopped]
  | _ => False
  end.
Proof.
  unfold start_observer_func. intros H.
  destruct (controller s) eqn:E; try discriminate H.
  - destruct (_observer_stop_event s); injection H as <-;
      [reflexivity | exact E].
  - injection H as <-. simpl. split; [reflexivity|].
    split; [destruct (_mouse_listener s) | destruct (_keyboard_listener s)];
      discriminate.
  - injection H as <-. simpl. auto.
  - destruct (_screenshot_thread s); try discriminate H.
    injection H as <-. auto.
  - destruct (_log_thread s); try discriminate H. injection H as <-. auto.
  - injection H as <-. simpl. split; [reflexivity|]. split.
    + apply flush_clears.
    + unfold _flush_key_buffer. simpl. destruct (_key_buffer s); reflexivity.
  - injection H as <-. simpl. auto.
Qed.

(** C2, on the code: the controller runs the five steps in the order of the
    claim, as the output shows, and the final flush reports the trailing
    text 'a' as logged; the text is put on the log queue after the log
    worker has left, so the log file does not hold it when completion is
    reported, and no later step of the run adds it. *)
Theorem final_flush_text_not_logged :
  exists s,
    run stop_after_typing (init "/") = Some s /\
    controller s = CDone /\
    output s =
      [MStarting; MRunning; MStopSignal; MMainLoopStop; MWaitingWorkers;
       MShotWorkerStopping; MLogWorkerStopping; MFlushingFinal;
       MLoggedTyping "a"; MStopped] /\
    _log_thread s = LDone /\
    _log_queue s = [Some (EType 10 "a")] /\
    log_file s = [] /\
    forall tr s', run tr s = Some s' -> log_file s' = [].
Proof.
  eexists. split; [vm_compute; reflexivity|].
  split; [reflexivity|]. split; [reflexivity|]. split; [reflexivity|].
  split; [reflexivity|]. split; [reflexivity|].
  intros tr s' H.
  apply run_after_exit in H; [| vm_compute; discriminate | reflexivity].
  destruct H as (F & _). exact F.
Qed.

(** ** What the log worker can still do during the shutdown sequence *)

Lemma past_sentinel_shutting_down (p : ctrl_pc) :
  past_sentinel p = true -> shutting_down p = true.
Proof. destruct p; simpl; congruence. Qed.

Lemma extends_keeps_sentinel (s s' : State) :
  extends s s' ->
  (_log_thread s = LGet -> In None (_log_queue s)) ->
  _log_thread s' = LGet -> In None (_log_queue s').
Proof.
  intros (_ & T & new & Hq) Inv Hg. rewrite Hq. apply in_or_app. left.
  apply Inv. congruence.
Qed.

Lemma ctrl_step_sentinel (now : Q) (s s' : State) :
  start_observer_func now s = Some s' ->
  past_sentinel (controller s') = true ->
  past_sentinel (controller s) = true \/ In None (_log_queue s').
Proof.
  unfold start_observer_func. intros H Hp.
  destruct (controller s) eqn:E; try discriminate H; try (now left).
  - destruct (_observer_stop_event s); injection H as <-; simpl in Hp;
      rewrite ?E in Hp; discriminate Hp.
  - injection H as <-. discriminate Hp.
  - injection H as <-. right. simpl. apply in_or_app. right. now left.
Qed.

Lemma log_step_not_get (ok : bool) (s s' : State) :
  _log_worker ok s = Some s' -> _observer_stop_event s = true ->
  _log_thread s' <> LGet.
Proof.
  unfold _log_worker. intros H Hs.
  destruct (_log_thread s); try discriminate H.
  - rewrite Hs in H. injection H as <-. discriminate.
  - destruct (_log_queue s) as [| [e |] q]; try discriminate H;
      injection H as <-; discriminate.
  - injection H as <-. discriminate.
Qed.

Lemma step_shutdown_inv (a : label) (s s' : State) :
  step a s = Some s' -> shutdown_inv s -> shutdown_inv s'.
Proof.
  intros H [Inv1 Inv2]. split; [eapply step_shutdown_stop; eauto|].
  pose proof (step_extends a s s' H) as He.
  pose proof (step_same_control a s s' H) as Hs.
  intros Hp Hg.
  destruct a; simpl in He, Hs;
    try (rewrite (proj1 Hs) in Hp;
         exact (extends_keeps_sentinel s s' He (Inv2 Hp) Hg));
    simpl in H.
  - destruct (controller s); try discriminate H.
    injection H as <-. unfold start_observer_begin in Hp.
    destruct mkdir_ok; discriminate Hp.
  - injection H as <-. exact (Inv2 Hp Hg).
  - destruct (ctrl_step_sentinel now s s' H Hp) as [Hp0 | Hin];
      [|exact Hin].
    exact (extends_keeps_sentinel s s' He (Inv2 Hp0) Hg).
  - assert (Hp0 : past_sentinel (controller s) = true).
    { unfold ctrl_join_timeout in H.
      destruct (controller s); try discriminate H; reflexivity. }
    exact (extends_keeps_sentinel s s' He (Inv2 Hp0) Hg).
  - exfalso. rewrite (proj1 Hs) in Hp.
    apply (log_step_not_get write_ok s s' H); [|exact Hg].
    apply Inv1. now apply past_sentinel_shutting_down.
  - exfalso. unfold log_timeout in H. case_split. discriminate Hg.
Qed.

Lemma run_shutdown_inv (tr : list label) (s s' : State) :
  run tr s = Some s' -> shutdown_inv s -> shutdown_inv s'.
Proof.
  revert s. induction tr as [| a tr IH]; simpl; intros s H Inv.
  - now injection H as <-.
  - destruct (step a s) as [s1 |] eqn:E; [|discriminate H].
    eapply IH; eauto using step_shutdown_inv.
Qed.

Lemma init_shutdown_inv (sep : ascii) : shutdown_inv (init sep).
Proof. split; discriminate. Qed.

Lemma step_past_sentinel (a : label) (s s' : State) :
  step a s = Some s' -> past_sentinel (controller s) = true ->
  past_sentinel (controller s') = true.
Proof.
  intros H Hp. pose proof (step_same_control a s s' H) as Hs.
  destruct a; simpl in Hs; try (now rewrite (proj1 Hs)); simpl in H.
  - destruct (controller s); discriminate.
  - injection H as <-. exact Hp.
  - unfold start_observer_func in H.
    destruct (controller s); try discriminate Hp; try discriminate H;
      case_split; reflexivity.
  - unfold ctrl_join_timeout in H.
    destruct (controller s); try discriminate H; injection H as <-;
      reflexivity.
Qed.

(** One step after the sentinels are out: the log file stays as it is and
    the worker keeps what it can still write, or loses it, or the file
    gains exactly that event. *)
Lemma step_last_write (a : label) (s s' : State) :
  step a s = Some s' -> shutdown_inv s ->
  past_sentinel (controller s) = true ->
  (log_file s' = log_file s /\
   (last_write s' = last_write s \/ last_write s' = [])) \/
  (log_file s' = log_file s ++ map normalize_paths (last_write s) /\
   last_write s' = []).
Proof.
  intros H [Inv1 Inv2] Hp.
  pose proof (step_extends a s s' H) as He.
  assert (Hext : extends s s' ->
          log_file s' = log_file s /\
          (last_write s' = last_write s \/ last_write s' = [])).
  { intros (F & T & new & Hq). split; [exact F|]. left.
    unfold last_write. rewrite T, Hq.
    destruct (_log_thread s) eqn:Et; try reflexivity.
    pose proof (Inv2 Hp eq_refl) as Hin.
    destruct (_log_queue s) as [| [e |] q]; [destruct Hin | |]; reflexivity. }
  destruct a; simpl in He; try (left; exact (Hext He)); simpl in H.
  - destruct (controller s); discriminate.
  - assert (Hs : _observer_stop_event s = true)
      by (apply Inv1; now apply past_sentinel_shutting_down).
    unfold _log_worker, _log_event in H. unfold last_write.
    destruct (_log_thread s) eqn:Et; try discriminate H.
    + rewrite Hs in H. injection H as <-. left. simpl. auto.
    + destruct (_log_queue s) as [| [e |] q]; try discriminate H;
        injection H as <-; left; simpl; auto.
    + destruct write_ok; injection H as <-; simpl.
      * right. auto.
      * left. auto.
  - unfold log_timeout in H. case_split. left. simpl. auto.
Qed.

(** Along every schedule: from the moment the sentinels are on the queues
    the log file gains at most one more line, the event the log worker
    already held or had in front of it inside [get].  What the final flush
    puts on the queue comes later and behind the sentinel, and is never
    written. *)
Lemma after_sentinel_at_most_one_write
  (tr0 tr : list label) (sep : ascii) (s s' : State) :
  run tr0 (init sep) = Some s ->
  past_sentinel (controller s) = true ->
  run tr s = Some s' ->
  exists w k,
    log_file s' = log_file s ++ w /\
    map normalize_paths (last_write s) = w ++ k.
Proof.
  intros H0 Hp H.
  pose proof (run_shutdown_inv tr0 _ _ H0 (init_shutdown_inv sep)) as Inv.
  clear H0. revert s Hp Inv H.
  induction tr as [| a tr IH]; simpl; intros s Hp Inv H.
  - injection H as <-. exists [], (map normalize_paths (last_write s)).
    split; [now rewrite app_nil_r | reflexivity].
  - destruct (step a s) as [s1 |] eqn:E; [|discriminate H].
    destruct (IH s1 (step_past_sentinel _ _ _ E Hp)
                (step_shutdown_inv _ _ _ E Inv) H) as (w1 & k1 & F1 & L1).
    destruct (step_last_write a s s1 E Inv Hp)
      as [[F [L | L]] | [F L]]; rewrite L in L1.
    + exists w1, k1. split; [congruence | exact L1].
    + simpl in L1. symmetry in L1. apply app_eq_nil in L1 as [-> _].
      exists [], (map normalize_paths (last_write s)).
      split; [rewrite F1, F; reflexivity | reflexivity].
    + simpl in L1. symmetry in L1. apply app_eq_nil in L1 as [-> _].
      exists (map normalize_paths (last_write s)), [].
      split; [rewrite F1, F, app_nil_r; reflexivity | now rewrite app_nil_r].
Qed.

(** ** AudioCommand events and recording sessions *)












Lemma flush_threads (now : Q) (s : State) :
  audio_threads (_flush_key_buffer now s) = audio_threads s.
Proof. unfold _flush_key_buffer. simpl. split_goal; reflexivity. Qed.


Lemma record_audio_finish_threads (now : Q) (ok : bool) (s : State) :
  audio_threads (record_audio_finish now ok s) = audio_threads s.
Proof. unfold record_audio_finish. destruct (_audio_frames s), ok; reflexivity. Qed.








(** ** A run of the service *)

(** A click, two characters and an idle gap give one click line and then
    one type line with the text "hi". *)
Example click_then_type_log :
  option_map log_file (run click_then_type (init "/")) =
  Some [EClick 1000 "Button.left" 100 200
               (Some "data/raw/1000_fullscreen.png")
               (Some "data/raw/1000_region.png");
        EType 1002 "hi"].
Proof. vm_compute. reflexivity. Qed.

(** On a platform whose separator is the backslash the paths of the event
    carry forward slashes all the same. *)
Example click_paths_windows :
  option_map _log_queue
    (step (LShotStep ok_sct)
       (set_screenshot_thread (SProc (mk_click 7 "Button.left" 1 2)) (init "\")))
  = Some [Some (EClick 7 "Button.left" 1 2
                       (Some "data/raw/7_fullscreen.png")
                       (Some "data/raw/7_region.png"))].
Proof. vm_compute. reflexivity. Qed.

(** * Further properties of the service *)

(** ** The captured region and the click *)

(** On a monitor of at least 100 x 100 the region computed for a click
    inside the monitor contains the clicked point, and it is centred on the
    point on each axis on which the point is at least 50 away from both
    edges. *)
Theorem region_contains_click (mon : monitor) (x y : Z) :
  REGION_SIZE <= m_width mon ->
  REGION_SIZE <= m_height mon ->
  inside_monitor mon x y ->
  (r_left (clamp_region mon x y) <= x < r_left (clamp_region mon x y) + 100) /\
  (r_top (clamp_region mon x y) <= y < r_top (clamp_region mon x y) + 100) /\
  (m_left mon + 50 <= x <= m_left mon + m_width mon - 50 ->
   r_left (clamp_region mon x y) = x - 50) /\
  (m_top mon + 50 <= y <= m_top mon + m_height mon - 50 ->
   r_top (clamp_region mon x y) = y - 50).
Proof.
  unfold inside_monitor, clamp_region, half_size, REGION_SIZE. simpl.
  change (100 / 2) with 50. intros Hw Hh [Hx Hy]. repeat split; lia.
Qed.

Lemma region_contains_click_witness :
  r_left (clamp_region (mk_monitor 0 0 1920 1080) 1900 500) <= 1900
    < r_left (clamp_region (mk_monitor 0 0 1920 1080) 1900 500) + 100.
Proof.
  apply (region_contains_click (mk_monitor 0 0 1920 1080) 1900 500);
    unfold REGION_SIZE, inside_monitor; simpl; lia.
Defined.

(** ** Paths and names in the events *)

Lemma replace_no_backslash (p : string) :
  has_backslash (Py.replace backslash slash p) = false.
Proof.
  unfold has_backslash. induction p as [| c p IH]; [reflexivity|].
  cbn [Py.replace list_ascii_of_string existsb]. rewrite IH, orb_false_r.
  destruct (Ascii.eqb_spec c backslash) as [-> | Hc]; [reflexivity|].
  apply Ascii.eqb_neq. congruence.
Qed.

Lemma replace_without_backslash (p : string) :
  has_backslash p = false -> Py.replace backslash slash p = p.
Proof.
  unfold has_backslash. induction p as [| c p IH]; [reflexivity|].
  cbn [Py.replace list_ascii_of_string existsb]. intros H.
  apply orb_false_elim in H as [Hc Hp].
  rewrite (IH Hp). rewrite Ascii.eqb_sym in Hc. now rewrite Hc.
Qed.

Lemma normalize_paths_idempotent (e : event) :
  normalize_paths (normalize_paths e) = normalize_paths e.
Proof.
  destruct e as [ts b x y [fs |] [rg |] | | | ts p d]; simpl;
    now rewrite ?(replace_without_backslash _ (replace_no_backslash _)).
Qed.

(** What [_log_event] writes: the line carries the event with every path
    entry free of backslashes, an event whose paths have none is written as
    it is, and normalising twice changes nothing; a failed write leaves the
    file as it was and is reported once. *)
Theorem log_event_normalizes (e : event) (s : State) :
  log_file (_log_event true e s) = log_file s ++ [normalize_paths e] /\
  output (_log_event true e s) = output s /\
  log_file (_log_event false e s) = log_file s /\
  output (_log_event false e s) = output s ++ [MErrorLogging] /\
  (forall p, In p (event_paths (normalize_paths e)) -> has_backslash p = false) /\
  ((forall p, In p (event_paths e) -> has_backslash p = false) ->
   normalize_paths e = e) /\
  normalize_paths (normalize_paths e) = normalize_paths e.
Proof.
  repeat (split; [reflexivity|]). split; [|split].
  - destruct e as [ts b x y [fs |] [rg |] | | | ts p d]; simpl; intros p0 H;
      repeat (destruct H as [<- | H]; [apply replace_no_backslash|]);
      destruct H.
  - intros H.
    destruct e as [ts b x y [fs |] [rg |] | | | ts p d]; simpl in *;
      rewrite ?replace_without_backslash; auto.
  - apply normalize_paths_idempotent.
Qed.

Lemma log_event_normalizes_witness :
  normalize_paths (EClick 7 "Button.left" 1 2 (Some "data/raw/7_fullscreen.png") None)
  = EClick 7 "Button.left" 1 2 (Some "data/raw/7_fullscreen.png") None.
Proof.
  refine (proj1 (proj2 (proj2 (proj2 (proj2 (proj2
           (log_event_normalizes
              (EClick 7 "Button.left" 1 2
                      (Some "data/raw/7_fullscreen.png") None)
              (init "/"))))))) _).
  intros p [<- | []]. vm_compute. reflexivity.
Defined.

Lemma process_click_queue (sct : sct_env) (c : click_data) (s : State) :
  _log_queue (process_click sct c s) =
  _log_queue s ++ [Some (click_event (os_sep s) sct c)].
Proof.
  unfold process_click, click_event, region_capture_ok, _safe_grab_region.
  destruct (sct_shot_ok sct);
    destruct (sct_monitors sct) as [| m0 [| mon rest]]; simpl;
    try destruct (sct_grab_ok sct _); try destruct (to_png_ok sct);
    reflexivity.
Qed.

(** The paths the service puts into its events do not depend on the
    separator of the platform: with [os.sep] a slash or a backslash a media
    path is ["data/raw/"] followed by the file name, without any backslash,
    and the Click event built for a dequeued item is the same on both. *)
Theorem paths_platform_independent (sep : ascii) (file : string) :
  sep = slash \/ sep = backslash ->
  data_path sep file = ("data/raw/" ++ Py.replace backslash slash file)%string /\
  has_backslash (data_path sep file) = false /\
  forall sct c s,
    os_sep s = sep ->
    _log_queue (process_click sct c s) =
    _log_queue s ++ [Some (click_event slash sct c)].
Proof.
  intros Hsep. split; [|split].
  - destruct Hsep as [-> | ->]; reflexivity.
  - apply replace_no_backslash.
  - intros sct c s Hs. rewrite process_click_queue, Hs.
    destruct Hsep as [-> | ->]; reflexivity.
Qed.

Lemma paths_platform_independent_witness :
  data_path backslash "7_region.png" = "data/raw/7_region.png".
Proof.
  apply (paths_platform_independent backslash "7_region.png"). now right.
Defined.

Lemma list_ascii_of_append (a b : string) :
  list_ascii_of_string (a ++ b) =
  list_ascii_of_string a ++ list_ascii_of_string b.
Proof. induction a as [| c a IH]; simpl; [reflexivity | now rewrite IH]. Qed.

Lemma append_cancel_r (a b t : string) :
  (a ++ t)%string = (b ++ t)%string -> a = b.
Proof.
  intros H. apply (f_equal list_ascii_of_string) in H.
  rewrite !list_ascii_of_append in H. apply app_inv_tail in H.
  rewrite <- (string_of_list_ascii_of_string a),
          <- (string_of_list_ascii_of_string b).
  now rewrite H.
Qed.

(** The name a special key gets in the log tells the keys apart: two
    members of [keyboard.Key] with different names (names without a dot, as
    enum names are) never get the same representation, the space key
    included. *)
Theorem special_key_repr_injective (n1 n2 : string) :
  has_dot n1 = false -> has_dot n2 = false ->
  special_key_repr n1 = special_key_repr n2 -> n1 = n2.
Proof.
  intros H1 H2. unfold special_key_repr, key_eqb, Key_space.
  rewrite (split_last_key_name n1 H1), (split_last_key_name n2 H2).
  destruct (String.eqb_spec n1 "space") as [-> | N1],
           (String.eqb_spec n2 "space") as [-> | N2];
    try reflexivity; try (simpl; discriminate).
  simpl. intros H. injection H as H. now apply append_cancel_r in H.
Qed.

Lemma special_key_repr_injective_witness :
  has_dot "page_up" = false /\
  special_key_repr "page_up" = "[page_up]" /\
  "page_up" = "page_up".
Proof.
  split; [vm_compute; reflexivity|]. split; [vm_compute; reflexivity|].
  apply (special_key_repr_injective "page_up" "page_up");
    vm_compute; reflexivity.
Defined.

(** ** Key release *)

(** [_on_release] ignores every key but the push-to-talk key, and that one
    too while nothing is being recorded.  A release of the push-to-talk key
    during a recording ends the session: [_is_recording] is cleared, the
    stop flag is set and no recording thread is left blocked in [wait()];
    queues, key buffer and log are not touched.  A second release right
    after changes nothing. *)
Theorem on_release_ends_recording (k : key) (s : State) :
  (key_eqb k PUSH_TO_TALK_KEY = false \/ _is_recording s = false ->
   _on_release k s = s) /\
  (key_eqb k PUSH_TO_TALK_KEY = true -> _is_recording s = true ->
   _is_recording (_on_release k s) = false /\
   _stop_recording_flag (_on_release k s) = true /\
   ~ In AWait (audio_threads (_on_release k s)) /\
   List.length (audio_threads (_on_release k s)) = List.length (audio_threads s) /\
   output (_on_release k s) = output s ++ [MRecordingStopped] /\
   _log_queue (_on_release k s) = _log_queue s /\
   _screenshot_queue (_on_release k s) = _screenshot_queue s /\
   _key_buffer (_on_release k s) = _key_buffer s) /\
  _on_release k (_on_release k s) = _on_release k s.
Proof.
  unfold _on_release. split; [|split].
  - intros [-> | ->]; [reflexivity | now rewrite andb_false_r].
  - intros -> ->. simpl. repeat split.
    + rewrite in_map_iff. intros ([] & H & _); discriminate H.
    + apply length_map.
  - destruct (key_eqb k PUSH_TO_TALK_KEY && _is_recording s) eqn:E.
    + simpl. now rewrite andb_false_r.
    + now rewrite E.
Qed.

Lemma on_release_ends_recording_witness :
  _is_recording (_on_release PUSH_TO_TALK_KEY recording) = false.
Proof.
  apply (on_release_ends_recording PUSH_TO_TALK_KEY recording);
    vm_compute; reflexivity.
Defined.

(** ** One thread running undisturbed *)

Lemma run_app (tr1 tr2 : list label) (s : State) :
  run (tr1 ++ tr2) s =
  match run tr1 s with
  | Some s1 => run tr2 s1
  | None => None
  end.
Proof.
  revert s. induction tr1 as [| a tr1 IH]; intros s; simpl; [reflexivity|].
  destruct (step a s); [apply IH | reflexivity].
Qed.

Lemma log_round_run (ok : bool) (e : event) (q : list (option event))
  (s : State) :
  _log_thread s = LHead ->
  _observer_stop_event s = false ->
  _log_queue s = Some e :: q ->
  run (log_round ok) s =
  Some (set_log_thread LHead
          (_log_event ok e
             (set_log_thread (LLog e) (set_log_queue q (set_log_thread LGet s))))).
Proof.
  intros T Hs Hq. unfold log_round.
  assert (S1 : step (LLogStep true) s = Some (set_log_thread LGet s)).
  { simpl. unfold _log_worker. now rewrite T, Hs. }
  assert (S2 : step (LLogStep true) (set_log_thread LGet s) =
               Some (set_log_thread (LLog e)
                       (set_log_queue q (set_log_thread LGet s)))).
  { simpl. unfold _log_worker. simpl. now rewrite Hq. }
  cbn [run]. rewrite S1, S2. reflexivity.
Qed.

(** While the stop signal is not set the log worker takes the queued events
    one by one, in arrival order, and appends a line for each event whose
    write succeeds; a failed write is reported, costs that one line only,
    and the worker goes on with the next event. *)
Theorem log_worker_writes_in_order
  (evs : list event) (oks : list bool) (rest : list (option event)) (s : State) :
  _log_thread s = LHead ->
  _observer_stop_event s = false ->
  _log_queue s = map Some evs ++ rest ->
  List.length oks = List.length evs ->
  exists s',
    run (log_rounds oks) s = Some s' /\
    log_file s' = log_file s ++ written evs oks /\
    output s' = output s ++ repeat MErrorLogging (failures oks) /\
    _log_queue s' = rest /\
    _log_thread s' = LHead.
Proof.
  revert oks s. induction evs as [| e evs IH]; intros [| ok oks] s T Hs Hq Hl;
    try discriminate Hl.
  - exists s. simpl. rewrite !app_nil_r. auto.
  - injection Hl as Hl. unfold log_rounds. cbn [flat_map]. fold (log_rounds oks).
    rewrite run_app, (log_round_run ok e (map Some evs ++ rest) s T Hs Hq).
    match goal with |- exists s', run _ ?s1 = _ /\ _ => set (s1' := s1) end.
    destruct (IH oks s1') as (s' & Hr & Hf & Ho & Hq' & T').
    + reflexivity.
    + subst s1'. unfold _log_event. destruct ok; exact Hs.
    + subst s1'. unfold _log_event. destruct ok; reflexivity.
    + exact Hl.
    + exists s'. split; [exact Hr|]. split; [|split; [|auto]].
      * rewrite Hf. subst s1'. unfold _log_event.
        destruct ok; simpl; now rewrite <- ?app_assoc, ?app_nil_r.
      * rewrite Ho. subst s1'. unfold _log_event, failures.
        destruct ok; simpl; now rewrite <- ?app_assoc, ?app_nil_r.
Qed.

Lemma log_worker_writes_in_order_witness :
  exists s',
    run (log_rounds [false; true]) two_keys_queued = Some s' /\
    log_file s' = [EKeyPress 11 "[tab]"] /\
    output s' = output two_keys_queued ++ [MErrorLogging].
Proof.
  destruct (log_worker_writes_in_order
              [EKeyPress 10 "[enter]"; EKeyPress 11 "[tab]"] [false; true] []
              two_keys_queued)
    as (s' & Hr & Hf & Ho & _); try (vm_compute; reflexivity).
  exists s'. split; [exact Hr|]. split; [rewrite Hf | rewrite Ho];
    vm_compute; reflexivity.
Defined.

Lemma process_click_frame (sct : sct_env) (c : click_data) (s : State) :
  os_sep (process_click sct c s) = os_sep s /\
  _screenshot_queue (process_click sct c s) = _screenshot_queue s /\
  _screenshot_thread (process_click sct c s) = _screenshot_thread s /\
  _observer_stop_event (process_click sct c s) = _observer_stop_event s /\
  log_file (process_click sct c s) = log_file s.
Proof.
  unfold process_click, _safe_grab_region.
  destruct (sct_shot_ok sct);
    destruct (sct_monitors sct) as [| m0 [| mon rest]]; simpl;
    try destruct (sct_grab_ok sct _); try destruct (to_png_ok sct);
    repeat split; reflexivity.
Qed.

Lemma shot_round_run (sct : sct_env) (c : click_data)
  (q : list (option click_data)) (s : State) :
  _screenshot_thread s = SHead ->
  _observer_stop_event s = false ->
  _screenshot_queue s = Some c :: q ->
  run (shot_round sct) s =
  Some (set_screenshot_thread SHead
          (process_click sct c
             (set_screenshot_thread (SProc c)
                (set_screenshot_queue q (set_screenshot_thread SGet s))))).
Proof.
  intros T Hs Hq. unfold shot_round.
  assert (S1 : step (LShotStep sct) s = Some (set_screenshot_thread SGet s)).
  { simpl. unfold _screenshot_worker. now rewrite T, Hs. }
  assert (S2 : step (LShotStep sct) (set_screenshot_thread SGet s) =
               Some (set_screenshot_thread (SProc c)
                       (set_screenshot_queue q (set_screenshot_thread SGet s)))).
  { simpl. unfold _screenshot_worker. simpl. now rewrite Hq. }
  cbn [run]. rewrite S1, S2. reflexivity.
Qed.

(** While the stop signal is not set the screenshot worker takes the queued
    clicks one by one, in arrival order, and puts one Click event for each
    on the log queue, in the same order, whatever the captures do; it
    writes nothing to the log file itself. *)
Theorem screenshot_worker_in_order
  (cs : list click_data) (scts : list sct_env)
  (rest : list (option click_data)) (s : State) :
  _screenshot_thread s = SHead ->
  _observer_stop_event s = false ->
  _screenshot_queue s = map Some cs ++ rest ->
  List.length scts = List.length cs ->
  exists s',
    run (shot_rounds scts) s = Some s' /\
    _log_queue s' = _log_queue s ++ click_events (os_sep s) cs scts /\
    _screenshot_queue s' = rest /\
    _screenshot_thread s' = SHead /\
    log_file s' = log_file s.
Proof.
  revert scts s.
  induction cs as [| c cs IH]; intros [| sct scts] s T Hs Hq Hl;
    try discriminate Hl.
  - exists s. simpl. rewrite app_nil_r. auto.
  - injection Hl as Hl. unfold shot_rounds. cbn [flat_map].
    fold (shot_rounds scts).
    rewrite run_app, (shot_round_run sct c (map Some cs ++ rest) s T Hs Hq).
    match goal with |- exists s', run _ ?s1 = _ /\ _ => set (s1' := s1) end.
    pose proof (process_click_frame sct c
                  (set_screenshot_thread (SProc c)
                     (set_screenshot_queue (map Some cs ++ rest)
                        (set_screenshot_thread SGet s))))
      as (Fsep & Fq & _ & Fstop & Ffile).
    pose proof (process_click_queue sct c
                  (set_screenshot_thread (SProc c)
                     (set_screenshot_queue (map Some cs ++ rest)
                        (set_screenshot_thread SGet s)))) as Fl.
    simpl in Fsep, Fq, Fstop, Ffile, Fl.
    destruct (IH scts s1') as (s' & Hr & Hlq & Hq' & T' & Hf).
    + reflexivity.
    + subst s1'. simpl. now rewrite Fstop.
    + subst s1'. simpl. exact Fq.
    + exact Hl.
    + exists s'. split; [exact Hr|]. split; [|split; [exact Hq'|split]].
      * rewrite Hlq. subst s1'. simpl. rewrite Fl, Fsep.
        now rewrite <- app_assoc.
      * exact T'.
      * rewrite Hf. subst s1'. simpl. exact Ffile.
Qed.

Lemma screenshot_worker_in_order_witness :
  exists s',
    run (shot_rounds [failing_sct; ok_sct]) two_clicks_queued = Some s' /\
    _log_queue s' =
      [Some (EClick 1000 "Button.left" 100 200 None None);
       Some (EClick 1001 "Button.right" 5 5
                    (Some "data/raw/1001_fullscreen.png")
                    (Some "data/raw/1001_region.png"))].
Proof.
  destruct (screenshot_worker_in_order
              [mk_click 1000 "Button.left" 100 200;
               mk_click 1001 "Button.right" 5 5]
              [failing_sct; ok_sct] [] two_clicks_queued)
    as (s' & Hr & Hq & _); try (vm_compute; reflexivity).
  exists s'. split; [exact Hr|]. rewrite Hq. vm_compute. reflexivity.
Defined.

(** ** Typing *)

Lemma press_char (c : ascii) (t t' : Q) (s : State) :
  _on_press (KeyCode (Some c)) t t' s =
  set_buffer_flush_timer true
    (set_key_buffer (_key_buffer s ++ [c]) (set_last_key_time (Some t) s)).
Proof. reflexivity. Qed.

Lemma type_keys_run (keys : list (ascii * Q)) (d : Q) (s : State) :
  _keyboard_listener s = Running ->
  exists s',
    run (type_keys keys) s = Some s' /\
    _key_buffer s' = _key_buffer s ++ map fst keys /\
    _log_queue s' = _log_queue s /\
    log_file s' = log_file s /\
    output s' = output s /\
    _keyboard_listener s' = Running /\
    match keys with
    | [] => s' = s
    | _ :: _ =>
        _buffer_flush_timer s' = true /\
        _last_key_time s' = Some (last_time keys d)
    end.
Proof.
  revert s. induction keys as [| [c t] keys IH]; intros s Hk.
  - exists s. simpl. rewrite app_nil_r. auto 10.
  - cbn [type_keys map run step fst snd]. rewrite Hk. rewrite press_char.
    destruct (IH (set_buffer_flush_timer true
                    (set_key_buffer (_key_buffer s ++ [c])
                       (set_last_key_time (Some t) s))) Hk)
      as (s' & Hr & Hb & Hq & Hf & Ho & Hk' & Hlast).
    exists s'. fold (type_keys keys). split; [exact Hr|].
    simpl in Hb, Hq, Hf, Ho. rewrite <- app_assoc in Hb.
    repeat (split; [assumption|]).
    unfold last_time in *. destruct keys as [| k keys].
    + subst s'. split; reflexivity.
    + exact Hlast.
Qed.

(** A run of printable keys grows the key buffer and puts nothing on the
    log queue; when the idle timer then fires, exactly one Type event is
    emitted, whose text is what was in the buffer followed by the typed
    characters in order, stamped with the time of the last key (the reading
    taken at the flush when that time is zero), and the buffer is empty
    again. *)
Theorem typing_then_idle_one_type_event
  (keys : list (ascii * Q)) (now : Q) (s : State) :
  _keyboard_listener s = Running ->
  keys <> [] ->
  exists s1 s',
    run (type_keys keys) s = Some s1 /\
    _log_queue s1 = _log_queue s /\
    _key_buffer s1 = _key_buffer s ++ map fst keys /\
    run (type_keys keys ++ [LTimer now]) s = Some s' /\
    _log_queue s' =
      _log_queue s ++
      [Some (EType (if Py.truthy (last_time keys 0)
                    then Py.int (last_time keys 0) else Py.int now)
                   (Py.join (_key_buffer s ++ map fst keys)))] /\
    _key_buffer s' = [] /\
    _buffer_flush_timer s' = false.
Proof.
  intros Hk Hne.
  destruct (type_keys_run keys 0 s Hk) as (s1 & Hr & Hb & Hq & _ & _ & _ & Hl).
  destruct keys as [| k keys]; [congruence|]. destruct Hl as [Ht Hlast].
  assert (Hbuf : _key_buffer s1 <> []).
  { rewrite Hb. destruct (_key_buffer s); discriminate. }
  exists s1, (_flush_key_buffer now s1).
  split; [exact Hr|]. split; [exact Hq|]. split; [exact Hb|]. split.
  - rewrite run_app, Hr. cbn [run step]. now rewrite Ht.
  - rewrite (flush_nonempty now s1 Hbuf). simpl.
    unfold flush_timestamp. rewrite Hlast, Hq, Hb. auto.
Qed.

Lemma typing_then_idle_one_type_event_witness :
  exists s',
    run (type_keys [("h"%char, 1001%Q); ("i"%char, 1002%Q)] ++ [LTimer 1004])
        started = Some s' /\
    _log_queue s' = [Some (EType 1002 "hi")].
Proof.
  destruct (typing_then_idle_one_type_event
              [("h"%char, 1001%Q); ("i"%char, 1002%Q)] 1004 started)
    as (s1 & s' & _ & _ & _ & Hr & Hq & _);
    [vm_compute; reflexivity | discriminate |].
  exists s'. split; [exact Hr|]. rewrite Hq. vm_compute. reflexivity.
Defined.

(** ** A push-to-talk cycle *)

Lemma nth_error_last {A : Type} (l : list A) (x : A) :
  nth_error (l ++ [x]) (List.length l) = Some x.
Proof. induction l as [| a l IH]; [reflexivity | exact IH]. Qed.

Lemma list_set_last {A : Type} (l : list A) (x p : A) :
  list_set (List.length l) p (l ++ [x]) = l ++ [p].
Proof. induction l as [| a l IH]; simpl; [reflexivity | now rewrite IH]. Qed.

Lemma set_audio_frames_nil_r (s : State) :
  set_audio_frames (_audio_frames s ++ []) s = s.
Proof. destruct s; simpl. now rewrite app_nil_r. Qed.

Lemma audio_frames_run (i : nat) (blocks : list Z) (s : State) :
  nth_error (audio_threads s) i = Some AWait ->
  run (map (LAudioFrame i false) blocks) s =
  Some (set_audio_frames (_audio_frames s ++ blocks) s).
Proof.
  revert s. induction blocks as [| n blocks IH]; intros s Hn.
  - simpl. now rewrite set_audio_frames_nil_r.
  - cbn [map run step]. unfold audio_frame. rewrite Hn.
    unfold audio_callback. rewrite IH by exact Hn.
    destruct s; simpl. now rewrite <- app_assoc.
Qed.

Lemma flush_queue (now : Q) (s : State) :
  _log_queue (_flush_key_buffer now s) =
  _log_queue s ++
  match _key_buffer s with
  | [] => []
  | b => [Some (EType (flush_timestamp now s) (Py.join b))]
  end.
Proof.
  unfold _flush_key_buffer, flush_timestamp. simpl.
  destruct (_key_buffer s); simpl; [now rewrite app_nil_r | reflexivity].
Qed.

Lemma audio_begin_step i o now ok (s : State) :
  nth_error (audio_threads s) i = Some ABegin ->
  step (LAudio i o now ok) s =
  Some (set_audio_pc i AOpen (set_audio_frames [] (out MRecordingAudio s))).
Proof. intros H. simpl. unfold _record_audio_task. now rewrite H. Qed.

Lemma audio_open_step i now ok (s : State) :
  nth_error (audio_threads s) i = Some AOpen ->
  _stop_recording_flag s = false ->
  step (LAudio i StreamOk now ok) s = Some (set_audio_pc i AWait s).
Proof. intros H F. simpl. unfold _record_audio_task. now rewrite H, F. Qed.

Lemma audio_close_step i now ok (s : State) :
  nth_error (audio_threads s) i = Some AWoken ->
  step (LAudio i StreamOk now ok) s = Some (set_audio_pc i AFinish s).
Proof. intros H. simpl. unfold _record_audio_task. now rewrite H. Qed.

Lemma audio_finish_step i o now ok (s : State) :
  nth_error (audio_threads s) i = Some AFinish ->
  step (LAudio i o now ok) s =
  Some (set_audio_pc i ADone (record_audio_finish now ok s)).
Proof. intros H. simpl. unfold _record_audio_task. now rewrite H. Qed.


Lemma key_eqb_push_to_talk : key_eqb PUSH_TO_TALK_KEY PUSH_TO_TALK_KEY = true.
Proof. vm_compute. reflexivity. Qed.

Lemma flush_fields (now : Q) (s : State) :
  _keyboard_listener (_flush_key_buffer now s) = _keyboard_listener s /\
  os_sep (_flush_key_buffer now s) = os_sep s.
Proof. unfold _flush_key_buffer. simpl. split_goal; split; reflexivity. Qed.

(** The press of the push-to-talk key while nothing is being recorded. *)
Lemma ptt_press (t : Q) (s : State) :
  _keyboard_listener s = Running ->
  _is_recording s = false ->
  exists s1,
    step (LPress PUSH_TO_TALK_KEY t t) s = Some s1 /\
    audio_threads s1 = audio_threads s ++ [ABegin] /\
    _keyboard_listener s1 = Running /\
    _is_recording s1 = true /\
    _stop_recording_flag s1 = false /\
    os_sep s1 = os_sep s /\
    _log_queue s1 =
      _log_queue s ++
      match _key_buffer s with
      | [] => []
      | b => [Some (EType (Py.int t) (Py.join b))]
      end.
Proof.
  intros Hk Hr.
  pose (F := _flush_key_buffer t (set_last_key_time (Some t) s)).
  exists (set_audio_threads (audio_threads F ++ [ABegin])
            (set_stop_recording_flag false (set_is_recording true F))).
  split.
  - cbn [step]. rewrite Hk. unfold _on_press.
    rewrite key_eqb_push_to_talk.
    replace (_is_recording (set_last_key_time (Some t) s)) with false
      by (symmetry; exact Hr).
    reflexivity.
  - destruct (flush_fields t (set_last_key_time (Some t) s)) as [Fk Fs].
    cbn [audio_threads _keyboard_listener _is_recording _stop_recording_flag
         os_sep _log_queue set_audio_threads set_stop_recording_flag
         set_is_recording].
    fold F in Fk, Fs. rewrite Fk, Fs. unfold F.
    rewrite flush_threads, flush_queue. unfold flush_timestamp.
    cbn [audio_threads _keyboard_listener os_sep _log_queue _key_buffer
         _last_key_time set_last_key_time].
    repeat (split; [first [reflexivity | assumption]|]).
    destruct (Py.truthy t); reflexivity.
Qed.

(** The recording thread from its start to the last block of samples. *)
Lemma ptt_record (L : list audio_pc) (t : Q) (blocks : list Z) (s1 : State) :
  audio_threads s1 = L ++ [ABegin] ->
  _stop_recording_flag s1 = false ->
  exists s4,
    run ([LAudio (List.length L) StreamOk t true;
          LAudio (List.length L) StreamOk t true]
         ++ map (LAudioFrame (List.length L) false) blocks) s1 = Some s4 /\
    audio_threads s4 = L ++ [AWait] /\
    _audio_frames s4 = blocks /\
    _keyboard_listener s4 = _keyboard_listener s1 /\
    _is_recording s4 = _is_recording s1 /\
    os_sep s4 = os_sep s1 /\
    _log_queue s4 = _log_queue s1.
Proof.
  intros T1 F1.
  pose (s2 := set_audio_pc (List.length L) AOpen
                (set_audio_frames [] (out MRecordingAudio s1))).
  assert (T2 : audio_threads s2 = L ++ [AOpen]).
  { unfold s2, set_audio_pc.
    cbn [audio_threads set_audio_threads set_audio_frames out set_output].
    rewrite T1. apply list_set_last. }
  pose (s3 := set_audio_pc (List.length L) AWait s2).
  assert (T3 : audio_threads s3 = L ++ [AWait]).
  { unfold s3, set_audio_pc. cbn [audio_threads set_audio_threads].
    rewrite T2. apply list_set_last. }
  exists (set_audio_frames (_audio_frames s3 ++ blocks) s3). split.
  - rewrite run_app. cbn [run].
    rewrite (audio_begin_step (List.length L) StreamOk t true s1)
      by (rewrite T1; apply nth_error_last).
    fold s2.
    rewrite (audio_open_step (List.length L) t true s2)
      by (first [rewrite T2; apply nth_error_last | exact F1]).
    fold s3. apply audio_frames_run. rewrite T3. apply nth_error_last.
  - split; [exact T3|]. repeat split.
Qed.

(** The release of the key, and the thread from its wake-up to its end. *)
Lemma ptt_release (L : list audio_pc) (now : Q) (save_ok : bool) (s4 : State) :
  audio_threads s4 = L ++ [AWait] ->
  _keyboard_listener s4 = Running ->
  _is_recording s4 = true ->
  exists s7,
    run [LRelease PUSH_TO_TALK_KEY;
         LAudio (List.length L) StreamOk now true;
         LAudio (List.length L) StreamOk now save_ok] s4 = Some s7 /\
    audio_threads s7 = map notify L ++ [ADone] /\
    _is_recording s7 = false /\
    _stop_recording_flag s7 = true /\
    _audio_frames s7 = _audio_frames s4 /\
    _log_queue s7 =
      _log_queue s4 ++
      match _audio_frames s4, save_ok with
      | _ :: _, true =>
          [Some (EAudioCommand (Py.int now)
                   (data_path (os_sep s4)
                      (Py.str_int (Py.int now) ++ "_audio.wav")%string)
                   (Py.round2 (Py.truediv (total_samples (_audio_frames s4))
                                          AUDIO_SAMPLE_RATE)))]
      | _, _ => []
      end.
Proof.
  intros T4 K4 R4.
  pose (s5 := out MRecordingStopped
                (set_is_recording false (stop_recording_flag_set s4))).
  assert (T5 : audio_threads s5 = map notify L ++ [AWoken]).
  { unfold s5, stop_recording_flag_set.
    cbn [audio_threads out set_output set_is_recording set_audio_threads].
    rewrite T4, map_app. reflexivity. }
  pose (i := List.length (map notify L)).
  pose (s6 := set_audio_pc i AFinish s5).
  assert (T6 : audio_threads s6 = map notify L ++ [AFinish]).
  { unfold s6, set_audio_pc. cbn [audio_threads set_audio_threads].
    rewrite T5. apply list_set_last. }
  exists (set_audio_pc i ADone (record_audio_finish now save_ok s6)).
  split; [|split; [|split; [|split; [|split]]]].
  - rewrite <- (length_map notify L). fold i. cbn [run step].
    rewrite K4. unfold _on_release. rewrite key_eqb_push_to_talk, R4.
    cbn [andb]. fold s5.
    fold (step (LAudio i StreamOk now true) s5).
    rewrite (audio_close_step i now true s5)
      by (rewrite T5; apply nth_error_last).
    fold s6.
    fold (step (LAudio i StreamOk now save_ok) s6).
    rewrite (audio_finish_step i StreamOk now save_ok s6)
      by (rewrite T6; apply nth_error_last).
    reflexivity.
  - unfold set_audio_pc. cbn [audio_threads set_audio_threads].
    rewrite record_audio_finish_threads, T6. apply list_set_last.
  - unfold record_audio_finish. destruct (_audio_frames s6), save_ok; reflexivity.
  - unfold record_audio_finish. destruct (_audio_frames s6), save_ok; reflexivity.
  - unfold record_audio_finish. destruct (_audio_frames s6), save_ok; reflexivity.
  - unfold set_audio_pc. cbn [_log_queue set_audio_threads].
    rewrite record_audio_finish_queue. reflexivity.
Qed.

(** One full push-to-talk cycle, from a state in which nothing is being
    recorded: the press flushes the key buffer and starts one recording
    thread, the thread collects the blocks of samples that come in while the
    key is held, the release ends the recording, and the thread, once it has
    saved the waveform, puts exactly one AudioCommand event on the log
    queue, whose duration is the rounded quotient of all samples of the
    cycle by the sample rate.  With no block at all, or with a failing
    save, the cycle ends without an event.  Afterwards [_is_recording] is
    cleared again. *)
Theorem push_to_talk_cycle
  (t now : Q) (blocks : list Z) (save_ok : bool) (s : State) :
  _keyboard_listener s = Running ->
  _is_recording s = false ->
  exists s',
    run (ptt_cycle (List.length (audio_threads s)) t blocks now save_ok) s
      = Some s' /\
    _is_recording s' = false /\
    _stop_recording_flag s' = true /\
    audio_threads s' = map notify (audio_threads s) ++ [ADone] /\
    _audio_frames s' = blocks /\
    _log_queue s' =
      _log_queue s ++
      match _key_buffer s with
      | [] => []
      | b => [Some (EType (Py.int t) (Py.join b))]
      end ++
      match blocks, save_ok with
      | _ :: _, true =>
          [Some (EAudioCommand (Py.int now)
                   (data_path (os_sep s)
                      (Py.str_int (Py.int now) ++ "_audio.wav")%string)
                   (Py.round2 (Py.truediv (total_samples blocks)
                                          AUDIO_SAMPLE_RATE)))]
      | _, _ => []
      end.
Proof.
  intros Hk Hr. unfold ptt_cycle.
  destruct (ptt_press t s Hk Hr) as (s1 & E1 & T1 & K1 & R1 & F1 & S1 & Q1).
  destruct (ptt_record (audio_threads s) t blocks s1 T1 F1)
    as (s4 & E4 & T4 & A4 & K4 & R4 & S4 & Q4).
  rewrite K1 in K4. rewrite R1 in R4.
  destruct (ptt_release (audio_threads s) now save_ok s4 T4 K4 R4)
    as (s7 & E7 & T7 & R7 & F7 & A7 & Q7).
  exists s7. split.
  - change (run ([LPress PUSH_TO_TALK_KEY t t] ++
                 ([LAudio (List.length (audio_threads s)) StreamOk t true;
                   LAudio (List.length (audio_threads s)) StreamOk t true]
                  ++ map (LAudioFrame (List.length (audio_threads s)) false)
                         blocks)
                 ++ [LRelease PUSH_TO_TALK_KEY;
                     LAudio (List.length (audio_threads s)) StreamOk now true;
                     LAudio (List.length (audio_threads s)) StreamOk now save_ok])
                s = Some s7).
    rewrite run_app. cbn [run]. rewrite E1, run_app, E4. exact E7.
  - rewrite A4 in A7, Q7. rewrite Q7, Q4, Q1, S4, S1, <- app_assoc.
    repeat (split; [assumption|]). reflexivity.
Qed.

Lemma push_to_talk_cycle_witness :
  exists s',
    run (ptt_cycle 0 5 [1600; 800] 8 true) started = Some s' /\
    _is_recording s' = false /\
    _log_queue s' = [Some (EAudioCommand 8 "data/raw/8_audio.wav" (Some 15))].
Proof.
  destruct (push_to_talk_cycle 5 8 [1600; 800] true started)
    as (s' & Hr & Hrec & _ & _ & _ & Hq); try (vm_compute; reflexivity).
  exists s'. split; [exact Hr|]. split; [exact Hrec|].
  rewrite Hq. vm_compute. reflexivity.
Defined.

(** ** Push-to-talk: presses, recording tasks and AudioCommand events *)











(** ** Invariants of the running service *)

Lemma process_click_keys (sct : sct_env) (c : click_data) (s : State) :
  _key_buffer (process_click sct c s) = _key_buffer s /\
  _buffer_flush_timer (process_click sct c s) = _buffer_flush_timer s /\
  _mouse_listener (process_click sct c s) = _mouse_listener s /\
  _keyboard_listener (process_click sct c s) = _keyboard_listener s.
Proof.
  unfold process_click, _safe_grab_region.
  destruct (sct_shot_ok sct);
    destruct (sct_monitors sct) as [| m0 [| mon rest]]; simpl;
    try destruct (sct_grab_ok sct _); try destruct (to_png_ok sct);
    repeat split; reflexivity.
Qed.

Lemma flush_buffer_has_timer (now : Q) (s : State) :
  buffer_has_timer (_flush_key_buffer now s).
Proof.
  unfold buffer_has_timer. destruct (flush_clears now s) as [-> _].
  congruence.
Qed.

Ltac keep_buffer H :=
  unfold buffer_has_timer in *; simpl; split_goal; simpl; exact H.

Lemma step_buffer_has_timer (a : label) (s s' : State) :
  step a s = Some s' -> buffer_has_timer s -> buffer_has_timer s'.
Proof.
  intros H Inv. destruct a; simpl in H.
  - destruct (controller s); try discriminate H. injection H as <-.
    unfold start_observer_begin. keep_buffer Inv.
  - injection H as <-. exact Inv.
  - unfold start_observer_func in H.
    destruct (controller s); try discriminate H; case_split;
      try exact Inv.
    unfold buffer_has_timer. simpl.
    apply (flush_buffer_has_timer now (out MFlushingFinal s)).
  - unfold ctrl_join_timeout in H. case_split; exact Inv.
  - unfold _log_worker, _log_event in H. case_split; exact Inv.
  - unfold log_timeout in H. case_split; exact Inv.
  - unfold _screenshot_worker in H. case_split; try exact Inv.
    unfold buffer_has_timer. simpl.
    destruct (process_click_keys sct c s) as (-> & -> & _). exact Inv.
  - unfold shot_timeout in H. case_split; exact Inv.
  - case_split. unfold _on_click. destruct pressed; exact Inv.
  - case_split. unfold _on_press.
    destruct (key_eqb k PUSH_TO_TALK_KEY).
    + simpl. destruct (_is_recording s); simpl; [exact Inv|].
      unfold buffer_has_timer. simpl.
      destruct (flush_clears now' (set_last_key_time (Some now) s)) as [-> _].
      congruence.
    + destruct k as [name | [c |]].
      * unfold buffer_has_timer. simpl. reflexivity.
      * unfold buffer_has_timer. simpl. reflexivity.
      * apply flush_buffer_has_timer.
  - case_split. unfold _on_release.
    destruct (key_eqb k PUSH_TO_TALK_KEY && _is_recording s); exact Inv.
  - case_split. apply flush_buffer_has_timer.
  - unfold _record_audio_task in H. case_split; try exact Inv;
      unfold buffer_has_timer, audio_except, record_audio_finish; simpl;
      split_goal; exact Inv.
  - unfold audio_frame in H. case_split; unfold audio_callback;
      destruct status; exact Inv.
Qed.

Lemma run_buffer_has_timer (tr : list label) (s s' : State) :
  run tr s = Some s' -> buffer_has_timer s -> buffer_has_timer s'.
Proof.
  revert s. induction tr as [| a tr IH]; simpl; intros s H Inv.
  - now injection H as <-.
  - destruct (step a s) as [s1 |] eqn:E; [|discriminate H].
    apply (IH s1 H). exact (step_buffer_has_timer a s s1 E Inv).
Qed.

(** Along every schedule of the service, whenever the key buffer holds
    typed text a flush timer is pending: text never waits in the buffer
    without something that will flush it. *)
Theorem typed_text_always_has_timer (tr : list label) (sep : ascii) (s : State) :
  run tr (init sep) = Some s ->
  _key_buffer s <> [] -> _buffer_flush_timer s = true.
Proof.
  intros H. apply (run_buffer_has_timer tr (init sep) s H).
  intros Hb. now elim Hb.
Qed.

Lemma typed_text_always_has_timer_witness :
  _buffer_flush_timer
    (after [LStart true; LPress (KeyCode (Some "a"%char)) 10 10] (init "/"))
  = true.
Proof.
  apply (typed_text_always_has_timer
           [LStart true; LPress (KeyCode (Some "a"%char)) 10 10] "/");
    vm_compute; [reflexivity | discriminate].
Defined.

Ltac keep_listeners H :=
  unfold listeners_inv, listeners_off in *; simpl; split_goal; simpl; exact H.

Lemma flush_listeners (now : Q) (s : State) :
  _mouse_listener (_flush_key_buffer now s) = _mouse_listener s /\
  _keyboard_listener (_flush_key_buffer now s) = _keyboard_listener s /\
  controller (_flush_key_buffer now s) = controller s.
Proof.
  unfold _flush_key_buffer. simpl. destruct (_key_buffer s); auto.
Qed.

Lemma step_listeners_inv (a : label) (s s' : State) :
  step a s = Some s' -> listeners_inv s -> listeners_inv s'.
Proof.
  intros H Inv. destruct a; simpl in H.
  - unfold listeners_inv, listeners_off in *.
    destruct (controller s) eqn:E; try discriminate H. injection H as <-.
    unfold start_observer_begin.
    destruct mkdir_ok; simpl; [discriminate|].
    intros _. exact (Inv eq_refl).
  - injection H as <-. exact Inv.
  - unfold start_observer_func in H. unfold listeners_inv, listeners_off in *.
    destruct (controller s) eqn:E; try discriminate H.
    + destruct (_observer_stop_event s); injection H as <-; simpl;
        rewrite ?E; discriminate.
    + injection H as <-. simpl. intros _.
      split; [destruct (_mouse_listener s) | destruct (_keyboard_listener s)];
        discriminate.
    + injection H as <-. simpl. intros _. exact (Inv eq_refl).
    + destruct (_screenshot_thread s); try discriminate H.
      injection H as <-. simpl. intros _. exact (Inv eq_refl).
    + destruct (_log_thread s); try discriminate H.
      injection H as <-. simpl. intros _. exact (Inv eq_refl).
    + injection H as <-. simpl. intros _.
      destruct (flush_listeners now (out MFlushingFinal s)) as (-> & -> & _).
      exact (Inv eq_refl).
    + injection H as <-. simpl. intros _. exact (Inv eq_refl).
  - unfold ctrl_join_timeout in H. unfold listeners_inv, listeners_off in *.
    destruct (controller s) eqn:E; try discriminate H;
      injection H as <-; simpl; intros _; exact (Inv eq_refl).
  - unfold _log_worker, _log_event in H. case_split; exact Inv.
  - unfold log_timeout in H. case_split; exact Inv.
  - unfold _screenshot_worker in H. case_split; try exact Inv.
    unfold listeners_inv, listeners_off. simpl.
    destruct (process_click_keys sct c s) as (_ & _ & -> & ->).
    destruct (process_click_same sct c s) as [-> _]. exact Inv.
  - unfold shot_timeout in H. case_split; exact Inv.
  - case_split. unfold _on_click. destruct pressed; exact Inv.
  - unfold listeners_inv, listeners_off in *.
    destruct (_keyboard_listener s) eqn:K; try discriminate H.
    intros Hc. exfalso. injection H as <-.
    destruct (on_press_same k now now' s) as [Hc' _]. rewrite Hc' in Hc.
    destruct (Inv Hc) as [_ Hk]. now apply Hk.
  - unfold listeners_inv, listeners_off in *.
    destruct (_keyboard_listener s) eqn:K; try discriminate H.
    intros Hc. exfalso. injection H as <-.
    assert (Hc' : controller (_on_release k s) = controller s).
    { unfold _on_release.
      destruct (key_eqb k PUSH_TO_TALK_KEY && _is_recording s); reflexivity. }
    rewrite Hc' in Hc. destruct (Inv Hc) as [_ Hk]. now apply Hk.
  - case_split. unfold listeners_inv, listeners_off.
    destruct (flush_listeners now s) as (-> & -> & ->). exact Inv.
  - unfold _record_audio_task in H. case_split; try exact Inv;
      unfold listeners_inv, listeners_off, audio_except, record_audio_finish;
      simpl; split_goal; exact Inv.
  - unfold audio_frame in H. case_split; unfold audio_callback;
      destruct status; exact Inv.
Qed.

Lemma run_listeners_inv (tr : list label) (s s' : State) :
  run tr s = Some s' -> listeners_inv s -> listeners_inv s'.
Proof.
  revert s. induction tr as [| a tr IH]; simpl; intros s H Inv.
  - now injection H as <-.
  - destruct (step a s) as [s1 |] eqn:E; [|discriminate H].
    apply (IH s1 H). exact (step_listeners_inv a s s1 E Inv).
Qed.

(** The listeners deliver input only while [start_observer_func] is in its
    loop or about to stop them: before the service is started, after a
    failed start, and from the moment the controller has stopped the
    listeners until after it has returned, no key press, key release or
    click is handled, along every schedule. *)
Theorem no_input_outside_loop (tr : list label) (sep : ascii) (s : State) :
  run tr (init sep) = Some s ->
  accepts_input (controller s) = false ->
  (forall k t t', step (LPress k t t') s = None) /\
  (forall k, step (LRelease k) s = None) /\
  (forall x y b p now, step (LClick x y b p now) s = None).
Proof.
  intros H Hc.
  assert (Inv : listeners_inv (init sep)) by (intros _; split; discriminate).
  destruct (run_listeners_inv tr _ _ H Inv Hc) as [Hm Hk].
  repeat split; intros; simpl.
  - destruct (_keyboard_listener s); congruence.
  - destruct (_keyboard_listener s); congruence.
  - destruct (_mouse_listener s); congruence.
Qed.

Lemma no_input_outside_loop_witness :
  step (LPress (Key "enter") 20 20) (after stop_after_typing (init "/")) = None.
Proof.
  apply (no_input_outside_loop stop_after_typing "/"); vm_compute; reflexivity.
Defined.

(** ** Start and stop *)

Lemma step_raised (a : label) (s s' : State) :
  step a s = Some s' -> controller s = CRaised -> controller s' = CRaised.
Proof.
  intros H Hc. pose proof (step_same_control a s s' H) as Hs.
  destruct a; simpl in Hs; try (now rewrite (proj1 Hs)); simpl in H.
  - rewrite Hc in H. discriminate H.
  - injection H as <-. exact Hc.
  - unfold start_observer_func in H. rewrite Hc in H. discriminate H.
  - unfold ctrl_join_timeout in H. rewrite Hc in H. discriminate H.
Qed.

Lemma run_raised (tr : list label) (s s' : State) :
  run tr s = Some s' -> controller s = CRaised -> controller s' = CRaised.
Proof.
  revert s. induction tr as [| a tr IH]; simpl; intros s H Hc.
  - now injection H as <-.
  - destruct (step a s) as [s1 |] eqn:E; [|discriminate H].
    apply (IH s1 H). exact (step_raised a s s1 E Hc).
Qed.

(** [start_observer_func] clears the stop signal when it is called, so a
    call of [stop_observer_func] that comes before it is lost: along every
    schedule in which no stop follows the start, [start_observer_func] does
    not return. *)
Theorem stop_before_start_is_lost
  (pre post : list label) (ok : bool) (sep : ascii) (s : State) :
  run (pre ++ LStart ok :: post) (init sep) = Some s ->
  existsb is_stop post = false ->
  controller s <> CDone.
Proof.
  rewrite run_app. destruct (run pre (init sep)) as [s0 |]; [|discriminate].
  cbn [run step]. destruct (controller s0) eqn:E0; try discriminate.
  intros H Hpost Hd.
  set (s1 := start_observer_begin ok s0) in *.
  destruct ok.
  - assert (Hs : _observer_stop_event s = true).
    { apply (run_shutdown_stop post s1 s H); [discriminate|].
      now rewrite Hd. }
    destruct (run_stop_set post s1 s H Hs) as [H1 | H1].
    + discriminate H1.
    + congruence.
  - assert (Hr : controller s = CRaised)
      by (apply (run_raised post s1 s H); reflexivity).
    congruence.
Qed.

Lemma stop_before_start_is_lost_witness :
  controller (after [LStop; LStart true; LCtrl 1; LCtrl 2] (init "/")) <> CDone.
Proof.
  apply (stop_before_start_is_lost [LStop] [LCtrl 1; LCtrl 2] true "/");
    vm_compute; reflexivity.
Defined.

Lemma dormant_step (a : label) (s s' : State) :
  dormant s -> controller s = CIdle \/ controller s = CRaised ->
  step a s = Some s' ->
  (a = LStop /\ dormant s' /\ controller s' = controller s) \/
  (exists ok, a = LStart ok /\ controller s = CIdle /\
              s' = start_observer_begin ok s).
Proof.
  intros (Hm & Hk & Hl & Hsh & Ha & Ht & Hf & Hq & Hsq) Hc H.
  destruct a; simpl in H.
  - right. exists mkdir_ok. destruct (controller s); try discriminate H.
    injection H as <-. auto.
  - left. injection H as <-. split; [reflexivity|].
    split; [|reflexivity]. repeat split; assumption.
  - unfold start_observer_func in H. destruct Hc as [Hc | Hc];
      rewrite Hc in H; discriminate H.
  - unfold ctrl_join_timeout in H. destruct Hc as [Hc | Hc];
      rewrite Hc in H; discriminate H.
  - unfold _log_worker in H. rewrite Hl in H. discriminate H.
  - unfold log_timeout in H. rewrite Hl in H. discriminate H.
  - unfold _screenshot_worker in H. rewrite Hsh in H. discriminate H.
  - unfold shot_timeout in H. rewrite Hsh in H. discriminate H.
  - destruct (_mouse_listener s); try discriminate H. now elim Hm.
  - destruct (_keyboard_listener s); try discriminate H. now elim Hk.
  - destruct (_keyboard_listener s); try discriminate H. now elim Hk.
  - rewrite Ht in H. discriminate H.
  - unfold _record_audio_task in H. rewrite Ha in H.
    destruct i; discriminate H.
  - unfold audio_frame in H. rewrite Ha in H. destruct i; discriminate H.
Qed.

Lemma dormant_raised_run (tr : list label) (s s' : State) :
  dormant s -> controller s = CRaised -> run tr s = Some s' ->
  dormant s' /\ controller s' = CRaised /\ forallb is_stop tr = true.
Proof.
  revert s. induction tr as [| a tr IH]; simpl; intros s D Hc H.
  - injection H as <-. auto.
  - destruct (step a s) as [s1 |] eqn:E; [|discriminate H].
    destruct (dormant_step a s s1 D (or_intror Hc) E)
      as [(-> & D1 & Hc1) | (ok & _ & Hi & _)]; [|congruence].
    destruct (IH s1 D1 (eq_trans Hc1 Hc) H) as (D' & Hc' & Hall). auto.
Qed.

Lemma dormant_idle_run (tr : list label) (s s' : State) :
  dormant s -> controller s = CIdle -> run tr s = Some s' ->
  controller s' = CIdle -> dormant s'.
Proof.
  revert s. induction tr as [| a tr IH]; simpl; intros s D Hc H Hc'.
  - now injection H as <-.
  - destruct (step a s) as [s1 |] eqn:E; [|discriminate H].
    destruct (dormant_step a s s1 D (or_introl Hc) E)
      as [(-> & D1 & Hc1) | (ok & -> & _ & ->)].
    + exact (IH s1 D1 (eq_trans Hc1 Hc) H Hc').
    + exfalso. apply (run_started tr _ _ H); [|exact Hc'].
      unfold start_observer_begin. destruct ok; discriminate.
Qed.

Lemma init_dormant (sep : ascii) : dormant (init sep).
Proof. repeat split; discriminate. Qed.

(** When [setup_directories] fails, [start_observer_func] leaves by the
    exception before anything is started.  As long as it is not called a
    second time the service stays as it was before the call: no listener,
    no worker, no recording task and no timer runs, and nothing is queued
    or logged, whatever calls of [stop_observer_func] come before or
    after. *)
Theorem failed_start_leaves_service_dormant
  (pre post : list label) (sep : ascii) (s : State) :
  run (pre ++ LStart false :: post) (init sep) = Some s ->
  starts (pre ++ LStart false :: post) = 1%nat ->
  controller s = CRaised /\ dormant s.
Proof.
  rewrite run_app. destruct (run pre (init sep)) as [s0 |] eqn:E0;
    [|discriminate].
  cbn [run step]. destruct (controller s0) eqn:C0; try discriminate.
  intros H _.
  pose proof (dormant_idle_run pre _ _ (init_dormant sep) eq_refl E0 C0) as D0.
  assert (D1 : dormant (start_observer_begin false s0)).
  { destruct D0 as (Hm & Hk & Hl & Hsh & Ha & Ht & Hf & Hq & Hsq).
    unfold start_observer_begin. repeat split; assumption. }
  destruct (dormant_raised_run post _ s D1 eq_refl H) as (D & Hc & _).
  split; assumption.
Qed.

Lemma failed_start_leaves_service_dormant_witness :
  starts [LStop; LStart false; LStop; LStop] = 1%nat /\
  log_file (after [LStop; LStart false; LStop; LStop] (init "/")) = [] /\
  _log_thread (after [LStop; LStart false; LStop; LStop] (init "/"))
    = LNotStarted.
Proof.
  split; [vm_compute; reflexivity|].
  destruct (failed_start_leaves_service_dormant [LStop] [LStop; LStop] "/"
              (after [LStop; LStart false; LStop; LStop] (init "/")))
    as (_ & _ & _ & Hl & _ & _ & _ & Hf & _);
    try (vm_compute; reflexivity).
  split; assumption.
Defined.

(** ** The workers after the stop signal *)

(** Once the stop signal is set the log worker leaves its loop within three
    steps of its own, whatever it was doing: it finishes the event it holds
    or the [get] it is in, and at the next test of the signal it is gone.
    On the way the log file gains at most one line and at most one item is
    taken off the queue. *)
Theorem log_worker_exits_after_stop (s : State) :
  _observer_stop_event s = true ->
  _log_thread s <> LNotStarted ->
  exists s' w,
    run (log_exit s) s = Some s' /\
    (List.length (log_exit s) <= 3)%nat /\
    _log_thread s' = LDone /\
    log_file s' = log_file s ++ w /\ (List.length w <= 1)%nat /\
    exists taken, _log_queue s = taken ++ _log_queue s' /\
                  (List.length taken <= 1)%nat.
Proof.
  intros Hs Ht. unfold log_exit.
  destruct (_log_thread s) eqn:T; [congruence | | | |].
  - eexists _, []. cbn [run step]. unfold _log_worker. rewrite T, Hs.
    split; [reflexivity|]. simpl. rewrite app_nil_r.
    repeat split; try lia. exists []. simpl. split; [reflexivity | lia].
  - destruct (_log_queue s) as [| [e |] q] eqn:Hq.
    + eexists _, []. cbn [run step]. unfold log_timeout. rewrite T, Hq.
      cbn [run step]. unfold _log_worker. simpl. rewrite Hs.
      split; [reflexivity|]. simpl. rewrite app_nil_r, Hq.
      repeat split; try lia. exists []. simpl. split; [reflexivity | lia].
    + eexists _, [normalize_paths e]. cbn [run step]. unfold _log_worker.
      rewrite T, Hq. cbn [run step]. unfold _log_worker. simpl.
      rewrite Hs. split; [reflexivity|]. simpl.
      repeat split; try lia. exists [Some e]. simpl. split; [reflexivity | lia].
    + eexists _, []. cbn [run step]. unfold _log_worker. rewrite T, Hq.
      split; [reflexivity|]. simpl. rewrite app_nil_r.
      repeat split; try lia. exists [None]. simpl. split; [reflexivity | lia].
  - eexists _, [normalize_paths e]. cbn [run step]. unfold _log_worker.
    rewrite T. cbn [run step]. unfold _log_worker. simpl. rewrite Hs.
    split; [reflexivity|]. simpl.
    repeat split; try lia. exists []. simpl. split; [reflexivity | lia].
  - eexists _, []. split; [reflexivity|]. simpl. rewrite app_nil_r.
    repeat split; try lia; try assumption.
    exists []. simpl. split; [reflexivity | lia].
Qed.

Lemma log_worker_exits_after_stop_witness :
  exists s',
    run (log_exit (after [LStop] two_keys_queued)) (after [LStop] two_keys_queued)
      = Some s' /\
    _log_thread s' = LDone.
Proof.
  destruct (log_worker_exits_after_stop (after [LStop] two_keys_queued))
    as (s' & w & Hr & _ & Hd & _); [vm_compute; reflexivity
                                   | vm_compute; discriminate |].
  exists s'. split; assumption.
Defined.

(** The same for the screenshot worker: with the stop signal set it leaves
    within three steps of its own, after at most one more Click event; the
    clicks still queued are left where they are. *)
Theorem screenshot_worker_exits_after_stop (sct : sct_env) (s : State) :
  _observer_stop_event s = true ->
  _screenshot_thread s <> SNotStarted ->
  exists s' new,
    run (shot_exit sct s) s = Some s' /\
    (List.length (shot_exit sct s) <= 3)%nat /\
    _screenshot_thread s' = SDone /\
    _log_queue s' = _log_queue s ++ new /\ (List.length new <= 1)%nat /\
    exists taken, _screenshot_queue s = taken ++ _screenshot_queue s' /\
                  (List.length taken <= 1)%nat.
Proof.
  intros Hs Ht. unfold shot_exit.
  destruct (_screenshot_thread s) eqn:T; [congruence | | | |].
  - eexists _, []. cbn [run step]. unfold _screenshot_worker. rewrite T, Hs.
    split; [reflexivity|]. simpl. rewrite app_nil_r.
    repeat split; try lia. exists []. simpl. split; [reflexivity | lia].
  - destruct (_screenshot_queue s) as [| [c |] q] eqn:Hq.
    + eexists _, []. cbn [run step]. unfold shot_timeout. rewrite T, Hq.
      cbn [run step]. unfold _screenshot_worker. simpl. rewrite Hs.
      split; [reflexivity|]. simpl. rewrite app_nil_r, Hq.
      repeat split; try lia. exists []. simpl. split; [reflexivity | lia].
    + set (s1 := set_screenshot_thread (SProc c) (set_screenshot_queue q s)).
      destruct (process_click_frame sct c s1) as (_ & Fq & _ & Fstop & _).
      pose proof (process_click_queue sct c s1) as Fl.
      exists (set_screenshot_thread SDone
                (out MShotWorkerStopping
                   (set_screenshot_thread SHead (process_click sct c s1)))),
             [Some (click_event (os_sep s) sct c)].
      cbn [run step]. unfold _screenshot_worker. rewrite T, Hq.
      cbn [run step]. unfold _screenshot_worker. simpl. fold s1.
      rewrite Fstop. simpl. rewrite Hs.
      split; [reflexivity|]. simpl. rewrite Fl, Fq. simpl.
      repeat split; try lia. exists [Some c]. simpl. split; [reflexivity | lia].
    + eexists _, []. cbn [run step]. unfold _screenshot_worker. rewrite T, Hq.
      split; [reflexivity|]. simpl. rewrite app_nil_r.
      repeat split; try lia. exists [None]. simpl. split; [reflexivity | lia].
  - destruct (process_click_frame sct c s) as (_ & Fq & _ & Fstop & _).
    pose proof (process_click_queue sct c s) as Fl.
    exists (set_screenshot_thread SDone
              (out MShotWorkerStopping
                 (set_screenshot_thread SHead (process_click sct c s)))),
           [Some (click_event (os_sep s) sct c)].
    cbn [run step]. unfold _screenshot_worker. rewrite T.
    cbn [run step]. unfold _screenshot_worker. simpl. rewrite Fstop, Hs.
    split; [reflexivity|]. simpl. rewrite Fl, Fq.
    repeat split; try lia. exists []. simpl. split; [reflexivity | lia].
  - eexists _, []. split; [reflexivity|]. simpl. rewrite app_nil_r.
    repeat split; try lia; try assumption.
    exists []. simpl. split; [reflexivity | lia].
Qed.

Lemma screenshot_worker_exits_after_stop_witness :
  exists s',
    run (shot_exit ok_sct (after [LStop] two_clicks_queued))
        (after [LStop] two_clicks_queued) = Some s' /\
    _screenshot_thread s' = SDone /\
    _screenshot_queue s' = _screenshot_queue two_clicks_queued.
Proof.
  destruct (screenshot_worker_exits_after_stop ok_sct
              (after [LStop] two_clicks_queued))
    as (s' & new & Hr & _ & Hd & _); [vm_compute; reflexivity
                                     | vm_compute; discriminate |].
  exists s'. split; [exact Hr|]. split; [exact Hd|].
  vm_compute in Hr. injection Hr as <-. vm_compute. reflexivity.
Defined.

(** ** The shape of the log *)

Lemma data_path_normalized (sep : ascii) (file : string) :
  Py.replace backslash slash (data_path sep file) = data_path sep file.
Proof.
  unfold data_path. apply replace_without_backslash, replace_no_backslash.
Qed.

Lemma normalize_well_formed (sep : ascii) (e : event) :
  well_formed sep e -> well_formed sep (normalize_paths e).
Proof.
  destruct e as [ts b x y fs rg | | | ts p d];
    cbn [well_formed normalize_paths]; auto.
  - intros [[-> | ->] [-> | ->]]; cbn [option_map];
      rewrite ?data_path_normalized; auto.
  - intros [-> Hd]. now rewrite data_path_normalized.
Qed.

Lemma click_event_well_formed (sep : ascii) (sct : sct_env) (c : click_data) :
  well_formed sep (click_event sep sct c).
Proof.
  unfold click_event. cbn [well_formed].
  destruct (sct_shot_ok sct), (region_capture_ok sct (cd_x c) (cd_y c)); auto.
Qed.

Lemma flush_well_formed (sep : ascii) (now : Q) (s : State) :
  Forall (well_formed_item sep) (_log_queue s) ->
  Forall (well_formed_item sep) (_log_queue (_flush_key_buffer now s)).
Proof.
  intros H. rewrite flush_queue. apply Forall_app. split; [exact H|].
  destruct (_key_buffer s); constructor; [|constructor].
  simpl. discriminate.
Qed.

Lemma on_press_well_formed (sep : ascii) (k : key) (t t' : Q) (s : State) :
  Forall (well_formed_item sep) (_log_queue s) ->
  Forall (well_formed_item sep) (_log_queue (_on_press k t t' s)).
Proof.
  intros H. unfold _on_press.
  destruct (key_eqb k PUSH_TO_TALK_KEY).
  - simpl. destruct (_is_recording s); simpl; [exact H|].
    now apply flush_well_formed.
  - destruct k as [name | [c |]].
    + simpl. apply Forall_app. split; [now apply flush_well_formed|].
      constructor; [|constructor]. simpl. now exists name.
    + exact H.
    + now apply flush_well_formed.
Qed.

Lemma record_audio_finish_well_formed (now : Q) (ok : bool) (s : State) :
  Forall (well_formed_item (os_sep s)) (_log_queue s) ->
  Forall (well_formed_item (os_sep s))
         (_log_queue (record_audio_finish now ok s)).
Proof.
  intros H. rewrite record_audio_finish_queue. apply Forall_app.
  split; [exact H|].
  destruct (_audio_frames s), ok; try (constructor; fail).
  constructor; [|constructor].
  cbn [well_formed_item well_formed]. split; [reflexivity|].
  eexists. reflexivity.
Qed.

Lemma step_os_sep (a : label) (s s' : State) :
  step a s = Some s' -> os_sep s' = os_sep s.
Proof.
  intros H. destruct a; simpl in H.
  - destruct (controller s); try discriminate H. injection H as <-.
    unfold start_observer_begin. now destruct mkdir_ok.
  - now injection H as <-.
  - unfold start_observer_func in H.
    destruct (controller s); try discriminate H; case_split; try reflexivity.
    simpl. unfold _flush_key_buffer. simpl. now destruct (_key_buffer s).
  - unfold ctrl_join_timeout in H. case_split; reflexivity.
  - unfold _log_worker, _log_event in H. case_split; reflexivity.
  - unfold log_timeout in H. case_split; reflexivity.
  - unfold _screenshot_worker in H. case_split; try reflexivity.
    simpl. apply process_click_frame.
  - unfold shot_timeout in H. case_split; reflexivity.
  - case_split. unfold _on_click. now destruct pressed.
  - case_split. unfold _on_press, _flush_key_buffer. simpl.
    split_goal; reflexivity.
  - case_split. unfold _on_release. split_goal; reflexivity.
  - case_split. unfold _flush_key_buffer. simpl. now destruct (_key_buffer s).
  - unfold _record_audio_task in H. case_split; try reflexivity;
      unfold audio_except, record_audio_finish; simpl; split_goal; reflexivity.
  - unfold audio_frame in H. case_split; unfold audio_callback;
      now destruct status.
Qed.

Lemma step_log_well_formed (a : label) (s s' : State) :
  step a s = Some s' -> log_well_formed s -> log_well_formed s'.
Proof.
  intros H (Hf & Hi & Hq). unfold log_well_formed.
  rewrite (step_os_sep a s s' H).
  pose proof (step_extends a s s' H) as He.
  assert (Hext : extends s s' ->
                 Forall (well_formed_item (os_sep s)) (_log_queue s') ->
                 Forall (well_formed (os_sep s)) (log_file s') /\
                 Forall (well_formed (os_sep s)) (in_flight s') /\
                 Forall (well_formed_item (os_sep s)) (_log_queue s')).
  { intros (F & T & _) Hq'. unfold in_flight in *. rewrite F, T. auto. }
  destruct a; simpl in He; simpl in H.
  - destruct (controller s); try discriminate H. injection H as <-.
    unfold start_observer_begin, in_flight in *.
    destruct mkdir_ok; simpl; auto.
  - apply Hext; [exact He|]. injection H as <-. exact Hq.
  - apply Hext; [exact He|]. unfold start_observer_func in H.
    destruct (controller s); try discriminate H; case_split; try exact Hq.
    + simpl. apply Forall_app. split; [exact Hq|].
      constructor; [exact I | constructor].
    + simpl. apply (flush_well_formed _ now (out MFlushingFinal s)). exact Hq.
  - apply Hext; [exact He|]. unfold ctrl_join_timeout in H.
    case_split; exact Hq.
  - unfold _log_worker, _log_event, in_flight in *.
    destruct (_log_thread s) eqn:T; try discriminate H.
    + destruct (_observer_stop_event s); injection H as <-; simpl; auto.
    + destruct (_log_queue s) as [| [e |] q]; try discriminate H;
        injection H as <-; simpl; inversion Hq; subst; auto.
    + destruct write_ok; injection H as <-; simpl.
      * split; [|auto]. apply Forall_app. split; [exact Hf|].
        constructor; [|constructor]. apply normalize_well_formed.
        now inversion Hi.
      * auto.
  - unfold log_timeout, in_flight in *.
    destruct (_log_thread s) eqn:T; try discriminate H.
    destruct (_log_queue s) eqn:Q; try discriminate H. injection H as <-.
    simpl. rewrite Q. auto.
  - apply Hext; [exact He|]. unfold _screenshot_worker in H.
    case_split; try exact Hq.
    simpl. rewrite process_click_queue. apply Forall_app.
    split; [exact Hq|]. constructor; [|constructor].
    apply click_event_well_formed.
  - apply Hext; [exact He|]. unfold shot_timeout in H. case_split; exact Hq.
  - apply Hext; [exact He|]. case_split. unfold _on_click.
    destruct pressed; exact Hq.
  - apply Hext; [exact He|]. case_split. now apply on_press_well_formed.
  - apply Hext; [exact He|]. case_split. unfold _on_release.
    destruct (key_eqb k PUSH_TO_TALK_KEY && _is_recording s); exact Hq.
  - apply Hext; [exact He|]. case_split. now apply flush_well_formed.
  - apply Hext; [exact He|]. unfold _record_audio_task in H.
    case_split; try exact Hq;
      try (unfold audio_except; simpl; split_goal; exact Hq).
    simpl. now apply record_audio_finish_well_formed.
  - apply Hext; [exact He|]. unfold audio_frame in H.
    case_split; unfold audio_callback; destruct status; exact Hq.
Qed.

Lemma run_log_well_formed (tr : list label) (s s' : State) :
  run tr s = Some s' -> log_well_formed s -> log_well_formed s'.
Proof.
  revert s. induction tr as [| a tr IH]; simpl; intros s H Inv.
  - now injection H as <-.
  - destruct (step a s) as [s1 |] eqn:E; [|discriminate H].
    apply (IH s1 H). exact (step_log_well_formed a s s1 E Inv).
Qed.

Lemma run_os_sep (tr : list label) (s s' : State) :
  run tr s = Some s' -> os_sep s' = os_sep s.
Proof.
  revert s. induction tr as [| a tr IH]; simpl; intros s H.
  - now injection H as <-.
  - destruct (step a s) as [s1 |] eqn:E; [|discriminate H].
    rewrite (IH s1 H). exact (step_os_sep a s s1 E).
Qed.

Lemma well_formed_paths (sep : ascii) (e : event) :
  well_formed sep e ->
  forall p, In p (event_paths e) -> has_backslash p = false.
Proof.
  destruct e as [ts b x y fs rg | | | ts p d];
    cbn [well_formed event_paths].
  - intros [[-> | ->] [-> | ->]] p0 H; simpl in H;
      repeat (destruct H as [<- | H]; [apply replace_no_backslash|]);
      destruct H.
  - intros _ p [].
  - intros _ p [].
  - intros [-> _] p0 [<- | []]. apply replace_no_backslash.
Qed.

(** Along every schedule every line of the log file has one of four
    shapes: a Click event whose image entries are [None] or the two files
    named after its own timestamp under the data directory; a Type event
    with a text that is not empty; a KeyPress event whose key is the
    representation of a special key; an AudioCommand event that names the
    waveform of its own timestamp and carries a rounded duration.  No path
    in a line holds a backslash. *)
Theorem log_lines_well_formed (tr : list label) (sep : ascii) (s : State) :
  run tr (init sep) = Some s ->
  forall e, In e (log_file s) ->
    well_formed sep e /\
    forall p, In p (event_paths e) -> has_backslash p = false.
Proof.
  intros H e Hin.
  assert (Inv : log_well_formed (init sep)) by (repeat split; constructor).
  destruct (run_log_well_formed tr _ _ H Inv) as (Hf & _).
  rewrite (run_os_sep tr _ _ H) in Hf. simpl in Hf.
  rewrite Forall_forall in Hf. specialize (Hf e Hin).
  split; [exact Hf | exact (well_formed_paths sep e Hf)].
Qed.

Lemma log_lines_well_formed_witness :
  well_formed "/" (EType 1002 "hi").
Proof.
  apply (log_lines_well_formed click_then_type "/"
           (after click_then_type (init "/")));
    vm_compute; auto.
Defined.

(** ** A recording whose stream fails *)











(** ** The log after the sentinels *)

(** Within one run of the service, that is as long as
    [start_observer_func] is not called a second time: from the moment the
    controller has put the sentinels on the queues the log file gains at
    most one more line, the event the log worker already held or had in
    front of it inside [get].  What is queued behind the sentinel, the text
    of the final flush included, is not written in this run. *)
Theorem sentinel_closes_log_of_the_run
  (tr0 tr : list label) (sep : ascii) (s s' : State) :
  run tr0 (init sep) = Some s ->
  past_sentinel (controller s) = true ->
  run tr s = Some s' ->
  starts (tr0 ++ tr) = 1%nat ->
  exists w k,
    log_file s' = log_file s ++ w /\
    map normalize_paths (last_write s) = w ++ k /\
    (List.length w <= 1)%nat.
Proof.
  intros H0 Hp H _.
  destruct (after_sentinel_at_most_one_write tr0 tr sep s s' H0 Hp H)
    as (w & k & Hf & Hw).
  exists w, k. split; [exact Hf|]. split; [exact Hw|].
  apply (f_equal (@List.length event)) in Hw.
  rewrite length_map, length_app in Hw.
  assert (List.length (last_write s) <= 1)%nat; [|lia].
  unfold last_write. destruct (_log_thread s); simpl; try lia.
  destruct (_log_queue s) as [| [e |] q]; simpl; lia.
Qed.

Lemma sentinel_closes_log_of_the_run_witness :
  exists w k,
    log_file (after [LStart true; LPress (Key "enter") 10 10; LLogStep true;
                     LStop; LCtrl 11; LCtrl 11; LCtrl 11;
                     LLogStep true; LLogStep true; LLogStep true]
                    (init "/")) =
    log_file (after [LStart true; LPress (Key "enter") 10 10; LLogStep true;
                     LStop; LCtrl 11; LCtrl 11; LCtrl 11] (init "/")) ++ w /\
    map normalize_paths
        (last_write (after [LStart true; LPress (Key "enter") 10 10;
                            LLogStep true; LStop; LCtrl 11; LCtrl 11; LCtrl 11]
                           (init "/"))) = w ++ k /\
    (List.length w <= 1)%nat.
Proof.
  apply (sentinel_closes_log_of_the_run
           [LStart true; LPress (Key "enter") 10 10; LLogStep true;
            LStop; LCtrl 11; LCtrl 11; LCtrl 11]
           [LLogStep true; LLogStep true; LLogStep true] "/");
    vm_compute; reflexivity.
Defined.

(** ** A click from the button to the log *)

Lemma click_event_normalized (sep : ascii) (sct : sct_env) (c : click_data) :
  normalize_paths (click_event sep sct c) = click_event sep sct c.
Proof.
  unfold click_event. cbn [normalize_paths].
  destruct (sct_shot_ok sct), (region_capture_ok sct (cd_x c) (cd_y c));
    cbn [option_map]; now rewrite ?data_path_normalized.
Qed.

(** One click, with both workers idle and the queues empty: the press of a
    mouse button puts one item on the screenshot queue, the screenshot
    worker turns it into one Click event, and the log worker appends
    exactly that event to the log file, stamped with the integer part of
    the time of the press and naming the images that could be captured;
    the paths need no normalising any more.  Both queues are empty again
    afterwards.  The release of the button is not recorded at all. *)
Theorem click_reaches_log
  (x y : Z) (b : string) (now : Q) (sct : sct_env) (s : State) :
  _mouse_listener s = Running ->
  _observer_stop_event s = false ->
  _screenshot_thread s = SHead -> _screenshot_queue s = [] ->
  _log_thread s = LHead -> _log_queue s = [] ->
  step (LClick x y b false now) s = Some s /\
  exists s',
    run (LClick x y b true now :: shot_round sct ++ log_round true) s
      = Some s' /\
    log_file s' =
      log_file s ++ [click_event (os_sep s) sct (mk_click (Py.int now) b x y)] /\
    _screenshot_queue s' = [] /\
    _log_queue s' = [].
Proof.
  intros Hm Hs Tsh Qsh Tl Ql. split.
  { cbn [step]. rewrite Hm. reflexivity. }
  pose (c := mk_click (Py.int now) b x y).
  pose (s1 := shot_put (Some c) s).
  assert (E1 : step (LClick x y b true now) s = Some s1).
  { cbn [step]. rewrite Hm. reflexivity. }
  pose (s1' := set_screenshot_thread (SProc c)
                 (set_screenshot_queue [] (set_screenshot_thread SGet s1))).
  pose (s2 := set_screenshot_thread SHead (process_click sct c s1')).
  assert (E2 : run (shot_round sct) s1 = Some s2).
  { apply shot_round_run; [exact Tsh | exact Hs |].
    unfold s1, shot_put. cbn [_screenshot_queue set_screenshot_queue].
    now rewrite Qsh. }
  destruct (process_click_frame sct c s1') as (Fsep & Fq & _ & Fstop & Ffile).
  destruct (process_click_extends sct c s1') as (_ & Fthread & _).
  pose proof (process_click_queue sct c s1') as Fl.
  pose (e := click_event (os_sep s) sct c).
  assert (Q2 : _log_queue s2 = [Some e]).
  { unfold s2. cbn [_log_queue set_screenshot_thread]. rewrite Fl.
    unfold s1', s1, shot_put.
    cbn [_log_queue os_sep set_screenshot_thread set_screenshot_queue].
    now rewrite Ql. }
  assert (T2 : _log_thread s2 = LHead).
  { unfold s2. cbn [_log_thread set_screenshot_thread]. rewrite Fthread.
    exact Tl. }
  assert (S2 : _observer_stop_event s2 = false).
  { unfold s2. cbn [_observer_stop_event set_screenshot_thread].
    rewrite Fstop. exact Hs. }
  assert (F2 : log_file s2 = log_file s).
  { unfold s2. cbn [log_file set_screenshot_thread]. rewrite Ffile.
    reflexivity. }
  assert (SQ2 : _screenshot_queue s2 = []).
  { unfold s2. cbn [_screenshot_queue set_screenshot_thread]. rewrite Fq.
    reflexivity. }
  pose proof (log_round_run true e [] s2 T2 S2 Q2) as E3.
  exists (set_log_thread LHead
            (_log_event true e
               (set_log_thread (LLog e)
                  (set_log_queue [] (set_log_thread LGet s2))))).
  split; [|split; [|split]].
  - rewrite <- E3.
    change (run ([LClick x y b true now] ++ shot_round sct ++ log_round true) s
            = run (log_round true) s2).
    rewrite run_app. cbn [run]. rewrite E1, run_app, E2. reflexivity.
  - unfold _log_event.
    cbn [log_file set_log_thread set_log_file set_log_queue].
    rewrite F2. unfold e. now rewrite click_event_normalized.
  - unfold _log_event.
    cbn [_screenshot_queue set_log_thread set_log_file set_log_queue].
    exact SQ2.
  - reflexivity.
Qed.

Lemma click_reaches_log_witness :
  exists s',
    run (LClick 100 200 "Button.left" true 1000
         :: shot_round ok_sct ++ log_round true)
        (after [LStart true; LLogStep true; LShotStep ok_sct;
                LLogTimeout; LShotTimeout] (init backslash)) = Some s' /\
    log_file s' =
      [EClick 1000 "Button.left" 100 200
              (Some "data/raw/1000_fullscreen.png")
              (Some "data/raw/1000_region.png")].
Proof.
  destruct (click_reaches_log 100 200 "Button.left" 1000 ok_sct
              (after [LStart true; LLogStep true; LShotStep ok_sct;
                      LLogTimeout; LShotTimeout] (init backslash)))
    as (_ & s' & Hr & Hf & _); try (vm_compute; reflexivity).
  exists s'. split; [exact Hr|]. rewrite Hf. vm_compute. reflexivity.
Defined.
